(** * Coralogix tail worker: the event-to-record pipeline of [src/index.js]

    A shallow embedding of the worker's record-building code
    ([tailEvent2fastly], [getValueOrLog], [extractRayId], [createCoralogixLog],
    [formatConsoleMessage] and the [tail] handler) together with the parts of
    the JavaScript runtime that this code leans on: truthiness and [||],
    property reads through [Object.prototype], [parseInt], [parseFloat],
    [String.prototype.toLowerCase]/[replace] and the [URL] constructor.

    Conventions.
    - A JavaScript number is an IEEE binary64 value, Rocq's primitive [float].
      Integral inputs that the code only stringifies or compares (HTTP status,
      AS number, epoch milliseconds) are kept as [Z].
    - A plain JavaScript object used as a map is an association list in
      insertion order, which is the order [Object.entries] walks.
    - An optional property of an incoming event is an [option]; [None] reads
      as [undefined].
    - Strings are byte strings; case folding is the ASCII one (header names
      are ASCII tokens). *)

From Stdlib Require Import ZArith String Ascii List Bool Floats Lia.
From Stdlib Require Import DecimalString DecimalZ DecimalPos DecimalFacts.
Import ListNotations.
Local Open Scope string_scope.
Local Open Scope list_scope.

Set Implicit Arguments.

(** ** JavaScript values *)

(** The values that flow through the worker.  [JsObject] stands for an object
    or function, identified by a name (for one owned by the runtime, its
    intrinsic, for instance ["Object.prototype.toString"]); all the code ever
    does with one is test its truthiness and store it. *)
Inductive JsValue : Type :=
| JsUndefined
| JsNull
| JsBoolean (b : bool)
| JsNumber (n : float)
| JsString (s : string)
| JsObject (name : string).

(** [ToBoolean]: the falsy values are [undefined], [null], [false], [+0], [-0],
    [NaN] and the empty string. *)
Definition ToBoolean (v : JsValue) : bool :=
  match v with
  | JsUndefined | JsNull => false
  | JsBoolean b => b
  | JsNumber n => negb (PrimFloat.is_zero n || PrimFloat.is_nan n)
  | JsString s => negb (s =? "")
  | JsObject _ => true
  end.

(** [a || b] *)
Definition js_or (a b : JsValue) : JsValue := if ToBoolean a then a else b.
Infix "|||" := js_or (at level 50, left associativity).

(** An optional string property read as a value. *)
Definition of_string (o : option string) : JsValue :=
  match o with Some s => JsString s | None => JsUndefined end.

(** ** Plain objects *)

Section PlainObject.
Variable V : Type.

(** The own property [key] of an object, if it has one. *)
Fixpoint own (o : list (string * V)) (key : string) : option V :=
  match o with
  | [] => None
  | (k, v) :: o' => if k =? key then Some v else own o' key
  end.

(** Defining or overwriting an own property: an existing key keeps its
    place, a new one goes last. *)
Fixpoint own_set (o : list (string * V)) (key : string) (v : V)
  : list (string * V) :=
  match o with
  | [] => [(key, v)]
  | (k, w) :: o' =>
      if k =? key then (key, v) :: o' else (k, w) :: own_set o' key v
  end.

(** The value of the last entry of a list of entries that has key [key]. *)
Fixpoint last_entry (l : list (string * V)) (key : string) : option V :=
  match l with
  | [] => None
  | (k, v) :: l' =>
      match last_entry l' key with
      | Some w => Some w
      | None => if k =? key then Some v else None
      end
  end.
End PlainObject.

(** What a property read finds on [Object.prototype] when the object has no
    own property of that name. *)
Definition Object_prototype_methods : list string :=
  [ "hasOwnProperty"; "isPrototypeOf"; "propertyIsEnumerable";
    "toLocaleString"; "toString"; "valueOf";
    "__defineGetter__"; "__defineSetter__";
    "__lookupGetter__"; "__lookupSetter__" ].

Definition Object_prototype (key : string) : JsValue :=
  if key =? "constructor" then JsObject "Object"
  else if key =? "__proto__" then JsObject "Object.prototype"
  else if existsb (String.eqb key) Object_prototype_methods
       then JsObject ("Object.prototype." ++ key)
  else JsUndefined.

(** [o[key]] on an object literal whose own properties are [o]. *)
Definition get (o : list (string * JsValue)) (key : string) : JsValue :=
  match own o key with
  | Some v => v
  | None => Object_prototype key
  end.

(** ** Headers *)

(** A header mapping: own enumerable string-valued properties. *)
Definition Headers : Type := list (string * string).

(** [headers[key]] *)
Definition header (h : Headers) (key : string) : JsValue :=
  match own h key with
  | Some s => JsString s
  | None => Object_prototype key
  end.

(** [acc[key] = value] for a string [value].  Writing ["__proto__"] runs the
    setter inherited from [Object.prototype], which ignores a value that is
    neither an object nor [null]: no own property is created. *)
Definition assign (acc : Headers) (key value : string) : Headers :=
  if key =? "__proto__" then acc else own_set acc key value.

(** ** Strings *)

Definition toLowerCase_ascii (c : ascii) : ascii :=
  let n := nat_of_ascii c in
  if ((65 <=? n) && (n <=? 90))%nat then ascii_of_nat (n + 32) else c.

Fixpoint toLowerCase (s : string) : string :=
  match s with
  | EmptyString => EmptyString
  | String c s' => String (toLowerCase_ascii c) (toLowerCase s')
  end.

(** [s.replace(/c/g, d)] for single characters [c] and [d]. *)
Fixpoint replace_all (c d : ascii) (s : string) : string :=
  match s with
  | EmptyString => EmptyString
  | String a s' => String (if Ascii.eqb a c then d else a) (replace_all c d s')
  end.

(** [s.replace(c, '')]: only the first occurrence of [c] goes. *)
Fixpoint remove_first (c : ascii) (s : string) : string :=
  match s with
  | EmptyString => EmptyString
  | String a s' => if Ascii.eqb a c then s' else String a (remove_first c s')
  end.

(** [key.toLowerCase().replace(/-/g, '_')] *)
Definition fold_key (key : string) : string :=
  replace_all "-" "_" (toLowerCase key).

(** The reducer that [tailEvent2fastly] runs over the request headers and over
    the response headers,
    [(acc, [key, value]) => { acc[key.toLowerCase().replace(/-/g, '_')] = value; return acc; }]. *)
Definition fold_step (acc : Headers) (e : string * string) : Headers :=
  let '(key, value) := e in assign acc (fold_key key) value.

(** [Object.entries(h).reduce(fold_step, {})] *)
Definition foldHeaders (h : Headers) : Headers := fold_left fold_step h [].

(** A source entry with its key folded. *)
Definition fold_entry (e : string * string) : string * string :=
  (fold_key (fst e), snd e).

Definition is_upper (c : ascii) : bool :=
  let n := nat_of_ascii c in ((65 <=? n) && (n <=? 90))%nat.

Fixpoint all_chars (p : ascii -> bool) (s : string) : bool :=
  match s with
  | EmptyString => true
  | String c s' => p c && all_chars p s'
  end.

(** A folded key: no upper-case letter and no hyphen. *)
Definition folded (s : string) : bool :=
  all_chars (fun c => negb (is_upper c) && negb (Ascii.eqb c "-")) s.

(** ** Numbers and strings *)

Definition is_digit (c : ascii) : bool :=
  let n := nat_of_ascii c in ((48 <=? n) && (n <=? 57))%nat.

Definition digit_value (c : ascii) : Z := Z.of_nat (nat_of_ascii c) - 48.

(** White space that [parseInt] and [parseFloat] skip (the ASCII part of
    [WhiteSpace] and [LineTerminator]). *)
Definition is_space (c : ascii) : bool :=
  let n := nat_of_ascii c in ((9 <=? n) && (n <=? 13) || (n =? 32))%nat.

Fixpoint trim_start (s : string) : string :=
  match s with
  | String c s' => if is_space c then trim_start s' else s
  | EmptyString => EmptyString
  end.

(** The longest prefix of [s] whose characters satisfy [p], and the rest. *)
Fixpoint span (p : ascii -> bool) (s : string) : string * string :=
  match s with
  | String c s' =>
      if p c then let '(a, b) := span p s' in (String c a, b)
      else (EmptyString, s)
  | EmptyString => (EmptyString, EmptyString)
  end.

(** The number written by a string of digits in radix [r], left to right from
    [acc]. *)
Fixpoint digits_value (r : Z) (value : ascii -> Z) (acc : Z) (s : string) : Z :=
  match s with
  | String c s' => digits_value r value (acc * r + value c) s'
  | EmptyString => acc
  end.

Definition is_hex_digit (c : ascii) : bool :=
  let n := nat_of_ascii c in
  (is_digit c || (65 <=? n) && (n <=? 70) || (97 <=? n) && (n <=? 102))%nat.

Definition hex_value (c : ascii) : Z :=
  let n := Z.of_nat (nat_of_ascii c) in
  (if is_digit c then n - 48 else if n <=? 70 then n - 55 else n - 87)%Z.

(** [Number.prototype.toString] on an integral number, within the range where
    the runtime writes plain decimal digits with a leading minus sign: below
    2^53 these are the digits of the integer, and from there up to 10^21 the
    runtime writes digits and zeros that [parseInt] reads back to the same
    number.  From 10^21 on the runtime switches to exponent form (['1e+21'],
    of which [parseInt] reads only the leading [1]); the model does not cover
    that range, and what is proved about reading such a string back is stated
    for [plain_decimal] numbers only. *)
Definition Number_toString (z : Z) : string :=
  NilZero.string_of_int (Z.to_int z).

(** The integral numbers that [toString] writes in plain decimal digits. *)
Definition plain_decimal (z : Z) : Prop := (Z.abs z < 10 ^ 21)%Z.

(** An optional sign at the head of a numeric string. *)
Definition sign_part (s : string) : bool * string :=
  match s with
  | String c s' =>
      if Ascii.eqb c "-" then (true, s')
      else if Ascii.eqb c "+" then (false, s')
      else (false, s)
  | EmptyString => (false, s)
  end.

(** [s.startsWith(p)] *)
Fixpoint starts_with (p s : string) : bool :=
  match p, s with
  | EmptyString, _ => true
  | String a p', String b s' => Ascii.eqb a b && starts_with p' s'
  | String _ _, EmptyString => false
  end.

Fixpoint drop (n : nat) (s : string) : string :=
  match n, s with
  | S n', String _ s' => drop n' s'
  | _, _ => s
  end.

(** [parseInt(s)] with no radix; [None] is [NaN].  The result of a successful
    parse is an integral number. *)
Definition parseInt (s : string) : option Z :=
  let '(neg, s) := sign_part (trim_start s) in
  let '(ds, r, value) :=
    if starts_with "0x" s || starts_with "0X" s
    then (fst (span is_hex_digit (drop 2 s)), 16%Z, hex_value)
    else (fst (span is_digit s), 10%Z, digit_value) in
  if ds =? "" then None
  else let n := digits_value r value 0 ds in
       Some (if neg then (- n)%Z else n).

(** The binary64 value nearest to [m * 10^e] (ties to even), signed by [neg]:
    the rounding that reading a decimal literal performs.  A negative
    exponent divides with 64 guard bits and a sticky bit before rounding. *)
Definition decimal_to_float (neg : bool) (m e : Z) : float :=
  let round (q s : Z) :=
    match q with
    | Zpos p => SF2Prim (SpecFloat.binary_round 53 1024 neg p s)
    | _ => SF2Prim (SpecFloat.S754_zero neg)
    end in
  if (0 <=? e)%Z then round (m * 10 ^ e)%Z 0%Z
  else
    let d := (10 ^ (- e))%Z in
    let s := Z.max 0 (Z.log2 d + 65 - Z.log2 m) in
    let n := (m * 2 ^ s)%Z in
    let q := (n / d)%Z in
    round (if (n mod d =? 0)%Z then q else Z.lor q 1) (- s)%Z.

(** The exponent part of a decimal literal at the head of [s], if there is
    one: [e] or [E], an optional sign, at least one digit. *)
Definition exponent_part (s : string) : Z :=
  match s with
  | String c s' =>
      if Ascii.eqb c "e" || Ascii.eqb c "E" then
        let '(neg, s'') := sign_part s' in
        let n := digits_value 10 digit_value 0 (fst (span is_digit s'')) in
        if neg then (- n)%Z else n
      else 0%Z
  | EmptyString => 0%Z
  end.

(** [parseFloat(s)]: leading white space, an optional sign, then the longest
    prefix that is [Infinity] or a decimal literal; [NaN] when there is
    none. *)
Definition parseFloat (s : string) : float :=
  let '(neg, s) := sign_part (trim_start s) in
  if starts_with "Infinity" s
  then (if neg then PrimFloat.neg_infinity else PrimFloat.infinity)
  else
    let '(ip, s) := span is_digit s in
    let '(fp, s) :=
      if starts_with "." s then span is_digit (drop 1 s) else (EmptyString, s) in
    if (ip ++ fp =? "")%string then PrimFloat.nan
    else decimal_to_float neg (digits_value 10 digit_value 0 (ip ++ fp))
           (exponent_part s - Z.of_nat (String.length fp)).

(** [ToString] of an optional string property: [undefined] becomes the string
    ["undefined"]. *)
Definition ToString (o : option string) : string :=
  match o with Some s => s | None => "undefined" end.

(** ** The [URL] constructor *)

(** A parsed URL, as the URL standard's record: [url_port] is [None] when the
    port is absent or the scheme's default, [url_query] and [url_fragment] are
    [None] when the input has no [?] or [#] part. *)
Record URL : Type := mkURL {
  url_scheme : string;
  url_host : string;
  url_port : option Z;
  url_path : string;
  url_query : option string;
  url_fragment : option string
}.

Definition is_alpha (c : ascii) : bool :=
  let n := nat_of_ascii (toLowerCase_ascii c) in ((97 <=? n) && (n <=? 122))%nat.

Definition is_scheme_char (c : ascii) : bool :=
  is_alpha c || is_digit c || Ascii.eqb c "+" || Ascii.eqb c "-" || Ascii.eqb c ".".

(** The special schemes with an authority, and their default ports. *)
Definition default_port (scheme : string) : option Z :=
  if scheme =? "http" then Some 80%Z
  else if scheme =? "https" then Some 443%Z
  else if scheme =? "ws" then Some 80%Z
  else if scheme =? "wss" then Some 443%Z
  else if scheme =? "ftp" then Some 21%Z
  else None.

Definition is_special (scheme : string) : bool :=
  match default_port scheme with Some _ => true | None => false end.

(** [s] cut at the first [c]: what comes before, and what comes after when
    there is a [c]. *)
Fixpoint cut (c : ascii) (s : string) : string * option string :=
  match s with
  | EmptyString => (EmptyString, None)
  | String a s' =>
      if Ascii.eqb a c then (EmptyString, Some s')
      else let '(l, r) := cut c s' in (String a l, r)
  end.

(** [s] cut at the last [c]. *)
Fixpoint cut_last (c : ascii) (s : string) : option (string * string) :=
  match s with
  | EmptyString => None
  | String a s' =>
      match cut_last c s' with
      | Some (l, r) => Some (String a l, r)
      | None => if Ascii.eqb a c then Some (EmptyString, s') else None
      end
  end.

Fixpoint strip_slashes (s : string) : string :=
  match s with
  | String "/" s' => strip_slashes s'
  | _ => s
  end.

Fixpoint filter_chars (p : ascii -> bool) (s : string) : string :=
  match s with
  | EmptyString => EmptyString
  | String c s' => if p c then String c (filter_chars p s') else filter_chars p s'
  end.

Fixpoint rev_string (acc s : string) : string :=
  match s with
  | EmptyString => acc
  | String c s' => rev_string (String c acc) s'
  end.

Definition is_c0_or_space (c : ascii) : bool := (nat_of_ascii c <=? 32)%nat.

Fixpoint trim_c0_start (s : string) : string :=
  match s with
  | String c s' => if is_c0_or_space c then trim_c0_start s' else s
  | EmptyString => EmptyString
  end.

Definition is_tab_or_newline (c : ascii) : bool :=
  let n := nat_of_ascii c in ((n =? 9) || (n =? 10) || (n =? 13))%nat.

(** Code points that may not occur in the host of a special URL. *)
Definition forbidden_host_char (c : ascii) : bool :=
  let n := nat_of_ascii c in
  ((n <=? 32) || (n =? 127))%nat
  || existsb (Ascii.eqb c) ["#"; "/"; "<"; ">"; "?"; "@"; "["; "\"; "]"; "^"; "|"]%char.

(** The port of an authority: digits only, at most 65535; the scheme's
    default port is dropped. *)
Definition parse_port (scheme port : string) : option (option Z) :=
  match port with
  | EmptyString => Some None
  | _ =>
      if all_chars is_digit port then
        let n := digits_value 10 digit_value 0 port in
        if (65535 <? n)%Z then None
        else match default_port scheme with
             | Some d => if (n =? d)%Z then Some None else Some (Some n)
             | None => Some (Some n)
             end
      else None
  end.

(** Host and port of an authority [userinfo@host:port]. *)
Definition parse_authority (scheme authority : string) : option (string * option Z) :=
  let hostport :=
    match cut_last "@" authority with
    | Some (_, hp) => hp
    | None => authority
    end in
  let '(host, port) :=
    match cut_last ":" hostport with
    | Some (h, p) => (h, p)
    | None => (hostport, EmptyString)
    end in
  let host := if is_special scheme then toLowerCase host else host in
  if is_special scheme
     && ((host =? "") || negb (all_chars (fun c => negb (forbidden_host_char c)) host))
  then None
  else
    match parse_port scheme port with
    | Some p => Some (host, p)
    | None => None
    end.

(** [new URL(input)] with no base; [None] is the [TypeError] that the
    constructor throws.  The model covers what the worker reads off the result
    (host name, port, path, query) for inputs of the shape
    [scheme://userinfo@host:port/path?query#fragment] with a plain host name,
    and for scheme-only inputs such as [mailto:].  It leaves host, path and
    query as written (no percent-encoding or decoding, no dot-segment
    removal, no canonical form for numeric or international hosts), so it
    accepts some hosts that the runtime refuses (an IPv4 number out of range,
    a bad percent escape) and refuses bracketed IPv6 hosts, which the runtime
    accepts; it treats [file:] as an ordinary scheme.  What is proved about
    the converter is stated for whatever URL the parse returns. *)
Definition URL_parse (input : string) : option URL :=
  let input := rev_string "" (trim_c0_start (rev_string "" (trim_c0_start input))) in
  let input := filter_chars (fun c => negb (is_tab_or_newline c)) input in
  match span is_scheme_char input with
  | (String c _ as sch, String ":" rest) =>
      if is_alpha c then
        let scheme := toLowerCase sch in
        let '(rest, fragment) := cut "#" rest in
        let '(hier, query) := cut "?" rest in
        let hier := if is_special scheme then replace_all "\" "/" hier else hier in
        let '(authority, path) :=
          if is_special scheme then
            let '(a, p) := span (fun c => negb (Ascii.eqb c "/")) (strip_slashes hier) in
            (Some a, if p =? "" then "/" else p)
          else if starts_with "//" hier then
            let '(a, p) := span (fun c => negb (Ascii.eqb c "/")) (drop 2 hier) in
            (Some a, p)
          else (None, hier) in
        match authority with
        | Some a =>
            match parse_authority scheme a with
            | Some (host, port) => Some (mkURL scheme host port path query fragment)
            | None => None
            end
        | None => Some (mkURL scheme "" None path query fragment)
        end
      else None
  | _ => None
  end.

(** The getters of a [URL] object that the worker or its specification
    mention. *)
Definition hostname (u : URL) : string := url_host u.

Definition port (u : URL) : string :=
  match url_port u with Some p => Number_toString p | None => "" end.

Definition host (u : URL) : string :=
  match url_port u with
  | Some p => url_host u ++ ":" ++ Number_toString p
  | None => url_host u
  end.

Definition pathname (u : URL) : string := url_path u.

Definition search (u : URL) : string :=
  match url_query u with
  | Some q => if q =? "" then "" else "?" ++ q
  | None => ""
  end.

(** ** Tail events *)

(** [request.cf] *)
Record Cf : Type := mkCf {
  cf_httpProtocol : option string;
  cf_asOrganization : option string;
  cf_asn : option Z;
  cf_city : option string;
  cf_country : option string;
  cf_continent : option string;
  cf_postalCode : option string;
  cf_latitude : option string;
  cf_longitude : option string;
  cf_colo : option string;
  cf_regionCode : option string;
  cf_ip : option string;
  cf_ray : option string
}.

(** [event.event.request] *)
Record Request : Type := mkRequest {
  req_method : option string;
  req_url : option string;
  req_headers : option Headers;
  req_cf : option Cf
}.

(** [event.event.response] *)
Record Response : Type := mkResponse {
  res_status : option Z;
  res_headers : option Headers
}.

(** [event.event], the fetch sub-event. *)
Record FetchEvent : Type := mkFetchEvent {
  fe_request : option Request;
  fe_response : option Response
}.

(** One element of a console message: an object, given by what
    [JSON.stringify] prints for it, or anything else, given by what [String]
    prints for it. *)
Inductive MessagePart : Type :=
| ObjectPart (json : string)
| ScalarPart (str : string).

(** The [message] of a log item: an array of parts, or a value that is not an
    array, given by what [String] prints for it. *)
Inductive Message : Type :=
| ArrayMessage (parts : list MessagePart)
| OtherMessage (str : string).

(** What [createCoralogixLog] reads off its [logData] argument: a console
    item has [level], [message], [timestamp]; an exception item has [name],
    [message], [timestamp]; the fetch sub-event has [request]. *)
Record LogData : Type := mkLogData {
  ld_timestamp : option Z;
  ld_level : option string;
  ld_message : Message;
  ld_name : option string;
  ld_request : option Request
}.

(** The fetch sub-event passed as [logData]. *)
Definition fetch_logData (fe : FetchEvent) : LogData :=
  mkLogData None None (OtherMessage "undefined") None (fe_request fe).

(** One tail event (the owning event). *)
Record TailEvent : Type := mkTailEvent {
  ev_scriptName : option string;
  ev_logs : option (list LogData);
  ev_exceptions : option (list LogData);
  ev_event : option FetchEvent;
  ev_rayId : option string;
  ev_wallTime : option float
}.

Record Env : Type := mkEnv {
  CORALOGIX_API_KEY : option string;
  CORALOGIX_ENDPOINT : option string;
  APPLICATION_NAME : option string;
  SUBSYSTEM_NAME : option string
}.

(** ** Records built by the worker *)

Record FastlyRequest : Type := mkFastlyRequest {
  request_method : JsValue;
  request_host : JsValue;
  request_url : string;
  request_qs : string;
  request_protocol : JsValue;
  request_backend : string;
  request_restarts : Z;
  request_body_size : Z;
  request_headers : Headers
}.

Record FastlyResponse : Type := mkFastlyResponse {
  response_status : option string;
  response_body_size : Z;
  response_headers : Headers
}.

Record FastlyHelix : Type := mkFastlyHelix {
  helix_request_type : string;
  helix_backend_type : string;
  helix_contentbus_prefix : string
}.

Record FastlyClient : Type := mkFastlyClient {
  client_name : JsValue;
  client_number : option Z;
  client_city_name : JsValue;
  client_country_name : JsValue;
  client_ip : JsValue
}.

Record Geopoint : Type := mkGeopoint {
  lat : JsValue;
  lon : JsValue
}.

Record FastlyAsn : Type := mkFastlyAsn {
  asn_number : option string;
  asn_organization : JsValue
}.

Record FastlyGeoip : Type := mkFastlyGeoip {
  geoip_ip : JsValue;
  geoip_ip_ipaddr : JsValue;
  geoip_location_geopoint : Geopoint;
  geoip_continent_name : JsValue;
  geoip_country_name : JsValue;
  geoip_city_name : JsValue;
  geoip_postal_code : JsValue;
  geoip_is_local : bool;
  geoip_asn : FastlyAsn
}.

Record FastlyCdn : Type := mkFastlyCdn {
  cdn_originating_ip_geoip : FastlyGeoip;
  cdn_version : string;
  cdn_url : JsValue;
  cdn_originating_ip : JsValue;
  cdn_time_elapsed_msec : option float;
  cdn_is_edge : bool;
  cdn_datacenter : JsValue;
  cdn_region_code : JsValue;
  cdn_cache_status : JsValue;
  cdn_cache_ttl : Z
}.

(** The object that [tailEvent2fastly] returns. *)
Record FastlyLog : Type := mkFastlyLog {
  fastly_request : FastlyRequest;
  fastly_response : FastlyResponse;
  fastly_helix : FastlyHelix;
  fastly_client : FastlyClient;
  fastly_cdn : FastlyCdn
}.

(** The [text] of a log entry.  [JSON.stringify] belongs to the runtime: where
    the worker stores the serialization of an object, the entry keeps that
    object. *)
Inductive Text : Type :=
| Literal (s : string)
| JSON_stringify_exception (name : option string) (message : Message)
                           (timestamp : option Z)
| JSON_stringify_fastly (fastlyLog : FastlyLog).

(** The log entry that [createCoralogixLog] returns.  [methodName] is not
    part of the object literal; it is [None] until it is assigned. *)
Record CoralogixLog : Type := mkCoralogixLog {
  timestamp : Z;
  applicationName : JsValue;
  subsystemName : JsValue;
  computerName : JsValue;
  severity : JsValue;
  text : Text;
  category : string;
  className : JsValue;
  threadId : JsValue;
  methodName : option JsValue
}.

(** ** Effects *)

(** What the worker touches besides its arguments: the clock behind
    [Date.now()], the numbers that successive calls of [Math.random()] return,
    the lines written with [console.warn] and [console.error], and the
    deliveries handed to [ctx.waitUntil] (each the array of log entries given
    to [sendToCoralogix]). *)
Record World : Type := mkWorld {
  clock : Z;
  entropy : nat -> float;
  draws : nat;
  console : list (string * string);
  waiting : list (list CoralogixLog)
}.

Definition M (A : Type) : Type := World -> A * World.

Definition ret {A : Type} (a : A) : M A := fun w => (a, w).

Definition bind {A B : Type} (m : M A) (k : A -> M B) : M B :=
  fun w => let '(a, w') := m w in k a w'.

Notation "x <- m ;; k" := (bind m (fun x => k))
  (at level 61, m at next level, right associativity).
Notation "m ;;; k" := (bind m (fun _ => k))
  (at level 61, right associativity).

Definition Date_now : M Z := fun w => (clock w, w).

Definition Math_random : M float :=
  fun w => (entropy w (draws w),
            mkWorld (clock w) (entropy w) (S (draws w)) (console w) (waiting w)).

Definition console_log (level message : string) : M unit :=
  fun w => (tt, mkWorld (clock w) (entropy w) (draws w)
                        (console w ++ [(level, message)]) (waiting w)).

Definition console_warn : string -> M unit := console_log "warn".
Definition console_error : string -> M unit := console_log "error".

(** [ctx.waitUntil(sendToCoralogix(logs, env))] *)
Definition waitUntil_sendToCoralogix (logs : list CoralogixLog) : M unit :=
  fun w => (tt, mkWorld (clock w) (entropy w) (draws w) (console w)
                        (waiting w ++ [logs])).

(** [for (const x of xs) body], threading what the body updates. *)
Fixpoint for_of {A S : Type} (xs : list A) (body : S -> A -> M S) (s : S) : M S :=
  match xs with
  | [] => ret s
  | x :: xs' => s' <- body s x ;; for_of xs' body s'
  end.

(** ** The worker *)

(** [SEVERITY_MAP] *)
Definition SEVERITY_MAP : list (string * JsValue) :=
  [ ("debug", JsNumber 1); ("info", JsNumber 3); ("log", JsNumber 3);
    ("warn", JsNumber 4); ("error", JsNumber 5) ].

(** [x?.f] on an optional object. *)
Definition opt {A B : Type} (o : option A) (f : A -> option B) : option B :=
  match o with Some a => f a | None => None end.

(** [tailEvent2fastly(tailEvent)]; [None] is the [null] it returns when there
    is no request or the URL does not parse. *)
Definition tailEvent2fastly (tailEvent : TailEvent) : option FastlyLog :=
  let request := opt (ev_event tailEvent) fe_request in
  let response := opt (ev_event tailEvent) fe_response in
  let cf := opt request req_cf in
  let headers := match opt request req_headers with Some h => h | None => [] end in
  let responseHeaders := match opt response res_headers with Some h => h | None => [] end in
  match request with
  | None => None
  | Some request =>
      match URL_parse (ToString (req_url request)) with
      | None => None
      | Some parsedUrl =>
          let ip := of_string (opt cf cf_ip) ||| header headers "cf-connecting-ip" in
          Some (mkFastlyLog
            (mkFastlyRequest
               (of_string (req_method request))
               (header headers "host" ||| JsString (hostname parsedUrl))
               (pathname parsedUrl)
               (remove_first "?" (search parsedUrl))
               (of_string (opt cf cf_httpProtocol))
               "cloudflare_worker"
               0
               0
               (foldHeaders headers))
            (mkFastlyResponse
               (option_map Number_toString (opt response res_status))
               0
               (foldHeaders responseHeaders))
            (mkFastlyHelix "dynamic" "cloudflare" "live")
            (mkFastlyClient
               (of_string (opt cf cf_asOrganization))
               (opt cf cf_asn)
               (of_string (opt cf cf_city))
               (of_string (opt cf cf_country))
               ip)
            (mkFastlyCdn
               (mkFastlyGeoip
                  ip
                  ip
                  (mkGeopoint
                     (JsNumber (parseFloat (ToString (opt cf cf_latitude))) ||| JsUndefined)
                     (JsNumber (parseFloat (ToString (opt cf cf_longitude))) ||| JsUndefined))
                  (of_string (opt cf cf_continent))
                  (of_string (opt cf cf_country))
                  (of_string (opt cf cf_city))
                  (of_string (opt cf cf_postalCode))
                  false
                  (mkFastlyAsn
                     (option_map Number_toString (opt cf cf_asn))
                     (of_string (opt cf cf_asOrganization))))
               "1"
               (of_string (req_url request))
               ip
               (ev_wallTime tailEvent)
               true
               (of_string (opt cf cf_colo))
               (of_string (opt cf cf_regionCode))
               (header responseHeaders "cf-cache-status")
               0))
      end
  end.

(** [value !== undefined && value !== null && value !== ''] *)
Definition present (value : JsValue) : bool :=
  match value with
  | JsUndefined | JsNull => false
  | JsString s => negb (s =? "")
  | _ => true
  end.

(** [getValueOrLog(value, fieldName, context)] *)
Definition getValueOrLog (value : JsValue) (fieldName context : string) : M JsValue :=
  if present value then ret value
  else
    r <- Math_random ;;
    (if PrimFloat.ltb r 0x1.999999999999ap-4%float
     then console_warn ("Missing " ++ fieldName
                          ++ (if context =? "" then "" else " in " ++ context))
     else ret tt) ;;;
    ret JsNull.

(** [event.event?.request || logData.request] *)
Definition request_of (event : TailEvent) (logData : LogData) : option Request :=
  match opt (ev_event event) fe_request with
  | Some r => Some r
  | None => ld_request logData
  end.

(** [extractRayId(event, logData)] *)
Definition extractRayId (event : TailEvent) (logData : LogData) : M JsValue :=
  match request_of event logData with
  | None =>
      console_warn "No request object found in event or logData" ;;;
      ret JsUndefined
  | Some request =>
      match req_headers request with
      | None =>
          console_warn "No headers found in request object" ;;;
          ret JsUndefined
      | Some requestHeaders =>
          cfRayHeader <- getValueOrLog (header requestHeaders "cf-ray")
                                       "cf-ray header" "request headers" ;;
          if ToBoolean cfRayHeader then ret cfRayHeader
          else
            cfRayObject <- getValueOrLog (of_string (opt (req_cf request) cf_ray))
                                         "cf.ray" "cf object" ;;
            if ToBoolean cfRayObject then ret cfRayObject
            else
              eventRayId <- getValueOrLog (of_string (ev_rayId event)) "rayId" "event" ;;
              if ToBoolean eventRayId then ret eventRayId
              else
                console_warn "CF-Ray ID not found in any expected location" ;;;
                ret JsUndefined
      end
  end.

(** [formatConsoleMessage(message)] *)
Definition formatConsoleMessage (message : Message) : string :=
  match message with
  | OtherMessage str => str
  | ArrayMessage parts =>
      String.concat " "
        (map (fun item => match item with
                          | ObjectPart json => json
                          | ScalarPart str => str
                          end) parts)
  end.

Definition set_severity (log : CoralogixLog) (v : JsValue) : CoralogixLog :=
  mkCoralogixLog (timestamp log) (applicationName log) (subsystemName log)
    (computerName log) v (text log) (category log) (className log)
    (threadId log) (methodName log).

Definition set_text (log : CoralogixLog) (t : Text) : CoralogixLog :=
  mkCoralogixLog (timestamp log) (applicationName log) (subsystemName log)
    (computerName log) (severity log) t (category log) (className log)
    (threadId log) (methodName log).

Definition set_className (log : CoralogixLog) (v : JsValue) : CoralogixLog :=
  mkCoralogixLog (timestamp log) (applicationName log) (subsystemName log)
    (computerName log) (severity log) (text log) (category log) v
    (threadId log) (methodName log).

Definition set_methodName (log : CoralogixLog) (v : JsValue) : CoralogixLog :=
  mkCoralogixLog (timestamp log) (applicationName log) (subsystemName log)
    (computerName log) (severity log) (text log) (category log) (className log)
    (threadId log) (Some v).

(** The severity that the [fetch] case derives from a truthy [status]
    string. *)
Definition status_severity (status : string) : JsValue :=
  match parseInt status with
  | Some statusCode =>
      if (500 <=? statusCode)%Z then JsNumber 5
      else if (400 <=? statusCode)%Z then JsNumber 4
      else JsNumber 3
  | None => JsNumber 3
  end.

(** The object literal that [createCoralogixLog] starts from. *)
Definition base_log (timestamp : Z) (rayId : JsValue) (event : TailEvent)
    (env : Env) (type : string) : CoralogixLog :=
  let scriptName := of_string (ev_scriptName event) in
  mkCoralogixLog
    timestamp
    (of_string (APPLICATION_NAME env) ||| JsString "cloudflare-tail")
    (scriptName ||| of_string (SUBSYSTEM_NAME env))
    scriptName
    (JsNumber 3)
    (Literal "")
    type
    (JsString "TailWorker")
    (rayId ||| scriptName)
    None.

(** The [switch (type)] of [createCoralogixLog], which formats [log] by the
    kind of entry. *)
Definition switch_type (log : CoralogixLog) (logData : LogData)
    (event : TailEvent) (type : string) : M CoralogixLog :=
  if type =? "console" then
    let log := set_severity log
                 (get SEVERITY_MAP (ToString (ld_level logData)) ||| JsNumber 3) in
    let log := set_text log (Literal (formatConsoleMessage (ld_message logData))) in
    let log := set_methodName log (of_string (ld_level logData)) in
    ret log
  else if type =? "exception" then
    let log := set_severity log (JsNumber 5) in
    let log := set_text log (JSON_stringify_exception (ld_name logData)
                               (ld_message logData) (ld_timestamp logData)) in
    let log := set_className log (of_string (ld_name logData)) in
    let log := set_methodName log (JsString "exception") in
    ret log
  else if type =? "fetch" then
    match tailEvent2fastly event with
    | None =>
        console_warn "Failed to convert tail event to Fastly format" ;;;
        ret (set_text log (Literal "Failed to convert fetch event"))
    | Some fastlyLog =>
        let log := set_text log (JSON_stringify_fastly fastlyLog) in
        let log := set_methodName log (JsString "fetch") in
        match response_status (fastly_response fastlyLog) with
        | Some status =>
            if status =? "" then ret log
            else ret (set_severity log (status_severity status))
        | None => ret log
        end
    end
  else ret log.

(** [logData.timestamp || Date.now()] *)
Definition timestamp_or_now (logData : LogData) : M Z :=
  match ld_timestamp logData with
  | Some t => if (t =? 0)%Z then Date_now else ret t
  | None => Date_now
  end.

(** [createCoralogixLog(logData, event, env, type)] *)
Definition createCoralogixLog (logData : LogData) (event : TailEvent) (env : Env)
    (type : string) : M CoralogixLog :=
  timestamp <- timestamp_or_now logData ;;
  rayId <- extractRayId event logData ;;
  (if ToBoolean (of_string (ev_scriptName event)) then ret tt
   else console_warn "Missing scriptName in event") ;;;
  switch_type (base_log timestamp rayId event env type) logData event type.

(** [events.slice(i, j)] *)
Definition slice {A : Type} (i j : nat) (events : list A) : list A :=
  firstn (j - i) (skipn i events).

(** The loop that fills [batches]:
    [for (let i = 0; i < events.length; i += batchSize) batches.push(events.slice(i, i + batchSize))].
    [fuel] bounds the number of rounds; [length events] rounds suffice. *)
Fixpoint batches_from {A : Type} (fuel i batchSize : nat) (events : list A)
  : list (list A) :=
  match fuel with
  | O => []
  | S fuel' =>
      if (i <? length events)%nat
      then slice i (i + batchSize) events
             :: batches_from fuel' (i + batchSize) batchSize events
      else []
  end.

(** The body of [for (const event of batch)]: the entries pushed onto [logs]
    for one tail event. *)
Definition tail_event (env : Env) (logs : list CoralogixLog) (event : TailEvent)
  : M (list CoralogixLog) :=
  logs <- match ev_logs event with
          | Some items =>
              for_of items
                (fun logs log =>
                   entry <- createCoralogixLog log event env "console" ;;
                   ret (logs ++ [entry])) logs
          | None => ret logs
          end ;;
  logs <- match ev_exceptions event with
          | Some items =>
              for_of items
                (fun logs exception =>
                   entry <- createCoralogixLog exception event env "exception" ;;
                   ret (logs ++ [entry])) logs
          | None => ret logs
          end ;;
  match ev_event event with
  | Some fe =>
      match fe_request fe with
      | Some _ =>
          entry <- createCoralogixLog (fetch_logData fe) event env "fetch" ;;
          ret (logs ++ [entry])
      | None => ret logs
      end
  | None => ret logs
  end.

(** The body of [for (const batch of batches)]. *)
Definition tail_batch (env : Env) (batch : list TailEvent) : M unit :=
  logs <- for_of batch (tail_event env) [] ;;
  if (0 <? length logs)%nat then waitUntil_sendToCoralogix logs else ret tt.

(** The [tail] handler. *)
Definition tail (events : list TailEvent) (env : Env) : M unit :=
  if negb (ToBoolean (of_string (CORALOGIX_API_KEY env)))
     || negb (ToBoolean (of_string (CORALOGIX_ENDPOINT env)))
  then console_error
         "Missing required environment variables: CORALOGIX_API_KEY and CORALOGIX_ENDPOINT"
  else
    let batchSize := 100%nat in
    let batches := batches_from (length events) 0 batchSize events in
    for_of batches (fun _ batch => tail_batch env batch) tt.

(** ** The specification's readings *)

(** "First present value wins": the first candidate that is present, else the
    fallback. *)
Fixpoint first_present (candidates : list JsValue) (fallback : JsValue) : JsValue :=
  match candidates with
  | [] => fallback
  | v :: vs => if present v then v else first_present vs fallback
  end.

(** The number of entries that one tail event contributes: one per console
    item, one per exception item, and one when the fetch sub-event has a
    request. *)
Definition contribution (event : TailEvent) : nat :=
  (match ev_logs event with Some items => length items | None => 0 end)
  + (match ev_exceptions event with Some items => length items | None => 0 end)
  + (match opt (ev_event event) fe_request with Some _ => 1 | None => 0 end).

(** The same count with "a fetch sub-event is present" read as written: one
    for any event that has a fetch sub-event. *)
Definition contribution_as_stated (event : TailEvent) : nat :=
  (match ev_logs event with Some items => length items | None => 0 end)
  + (match ev_exceptions event with Some items => length items | None => 0 end)
  + (match ev_event event with Some _ => 1 | None => 0 end).

(** The severities of the Coralogix scale that the worker uses. *)
Definition severity_ok (v : JsValue) : Prop :=
  v = JsNumber 1 \/ v = JsNumber 3 \/ v = JsNumber 4 \/ v = JsNumber 5.

(** [event.event?.response?.status] *)
Definition status_of (event : TailEvent) : option Z :=
  opt (opt (ev_event event) fe_response) res_status.

(** A computation that schedules no delivery. *)
Definition quiet {A : Type} (m : M A) : Prop :=
  forall w, waiting (snd (m w)) = waiting w.

(** The entries handed over for delivery so far. *)
Definition delivered (w : World) : nat := length (concat (waiting w)).

(** The configuration check at the head of [tail] passes. *)
Definition configured (env : Env) : bool :=
  ToBoolean (of_string (CORALOGIX_API_KEY env))
  && ToBoolean (of_string (CORALOGIX_ENDPOINT env)).

(** ** Sample events *)

(** The tail event of the conversion test, as far as its assertions fix it. *)
Definition sample_cf : Cf :=
  mkCf (Some "HTTP/2") (Some "1&1 Versatel GmbH") (Some 8881%Z) (Some "Potsdam")
       (Some "DE") (Some "EU") (Some "14467") (Some "52.39886") (Some "13.06566")
       (Some "TXL") (Some "BB") None (Some "8f2a6c0d1e5b3a7c").

Definition sample_headers : Headers :=
  [ ("accept-encoding", "gzip, br"); ("cf-connecting-ip", "203.0.113.7");
    ("cf-ray", "8f2a6c0d1e5b3a7c"); ("host", "minivelos.bike");
    ("user-agent", "Mozilla/5.0") ].

Definition sample_request : Request :=
  mkRequest (Some "GET") (Some "https://minivelos.bike/bikes/lars-moulton-tsr")
            (Some sample_headers) (Some sample_cf).

Definition sample_fetch (url : string) (headers : option Headers) (cf : option Cf)
    (status : option Z) : FetchEvent :=
  mkFetchEvent (Some (mkRequest (Some "GET") (Some url) headers cf))
               (Some (mkResponse status (Some [("cf-cache-status", "HIT")]))).

Definition sample_event : TailEvent :=
  mkTailEvent (Some "forward") (Some []) (Some [])
    (Some (mkFetchEvent (Some sample_request) (Some (mkResponse (Some 200%Z) (Some [])))))
    None (Some 28%float).

(** A tail event that carries only the fetch sub-event [fe]. *)
Definition fetch_only (fe : FetchEvent) : TailEvent :=
  mkTailEvent (Some "forward") None None (Some fe) None None.

Definition sample_console (level : string) : LogData :=
  mkLogData (Some 1700000000123%Z) (Some level)
            (ArrayMessage [ScalarPart "a"; ObjectPart "[1,2]"]) None None.

Definition sample_env : Env :=
  mkEnv (Some "key") (Some "https://ingress.eu1.coralogix.com/logs/v1/singles")
        (Some "cloudflare-tail") (Some "unknown-worker").

Definition sample_world : World :=
  mkWorld 1700000000000%Z (fun _ => 0.5%float) 0 [] [].

(** ** Delivery *)

(** The second argument of the [fetch] call in [sendToCoralogix].  The body
    is [JSON.stringify(logs)]; the model keeps the array. *)
Record FetchInit : Type := mkFetchInit {
  init_method : string;
  init_headers : list (string * string);
  init_body : list CoralogixLog
}.

(** How [await fetch(url, init)] ends: the promise rejects with an error
    (given by what the console prints for it), or resolves to a response with
    a status, a status text and a body; [response.text()] gives the body
    ([inl]) or rejects in turn ([inr]). *)
Inductive FetchResult : Type :=
| Rejected (error : string)
| Resolved (status : Z) (statusText : string) (text : string + string).

(** [response.ok]: the status is in the range 200-299. *)
Definition response_ok (status : Z) : bool :=
  ((200 <=? status) && (status <=? 299))%Z.

(** [sendToCoralogix(logs, env)], run to completion against a network that
    answers the request with [fetch url init].  A console call with two
    arguments prints them with a space in between. *)
Definition sendToCoralogix (fetch : JsValue -> FetchInit -> FetchResult)
    (logs : list CoralogixLog) (env : Env) : M unit :=
  let url := of_string (CORALOGIX_ENDPOINT env) in
  match fetch url
          (mkFetchInit "POST"
             [ ("Content-Type", "application/json");
               ("Authorization", ("Bearer " ++ ToString (CORALOGIX_API_KEY env))%string) ]
             logs) with
  | Resolved status statusText text =>
      if negb (response_ok status) then
        match text with
        | inl errorText =>
            console_error
              ("Failed to send logs to Coralogix: " ++ Number_toString status
                 ++ " " ++ statusText ++ " " ++ errorText)
        | inr error =>
            console_error ("Error sending logs to Coralogix: " ++ error)
        end
      else
        console_log "log"
          ("Successfully sent " ++ Number_toString (Z.of_nat (length logs))
             ++ " logs to Coralogix")
  | Rejected error =>
      console_error ("Error sending logs to Coralogix: " ++ error)
  end.

(** ** Readings used by the further properties *)

(** A log entry with its timestamp blanked, to compare entries built at
    different times. *)
Definition untimed (log : CoralogixLog) : CoralogixLog :=
  mkCoralogixLog 0 (applicationName log) (subsystemName log) (computerName log)
    (severity log) (text log) (category log) (className log) (threadId log)
    (methodName log).

(** The entry for an item, apart from its timestamp: what
    [createCoralogixLog] builds in the sample world. *)
Definition entry (logData : LogData) (event : TailEvent) (env : Env)
    (type : string) : CoralogixLog :=
  untimed (fst (createCoralogixLog logData event env type sample_world)).

(** The entries of one tail event, apart from their timestamps, in the order
    in which [tail] pushes them. *)
Definition event_entries (env : Env) (event : TailEvent) : list CoralogixLog :=
  (match ev_logs event with
   | Some items => map (fun log => entry log event env "console") items
   | None => []
   end)
  ++ (match ev_exceptions event with
      | Some items => map (fun exception => entry exception event env "exception") items
      | None => []
      end)
  ++ (match ev_event event with
      | Some fe =>
          match fe_request fe with
          | Some _ => [entry (fetch_logData fe) event env "fetch"]
          | None => []
          end
      | None => []
      end).

(** [m] draws at most [d] random numbers and appends at most [l] lines to the
    console, leaving the earlier lines in place. *)
Definition bounded {A : Type} (d l : nat) (m : M A) : Prop :=
  forall w,
    draws w <= draws (snd (m w)) <= draws w + d
    /\ exists lines, console (snd (m w)) = console w ++ lines
                     /\ length lines <= l.

(** * Properties *)

(** ** Plain objects and header folding *)

Lemma own_own_set (V : Type) (o : list (string * V)) (key k : string) (v : V) :
  own (own_set o key v) k = if key =? k then Some v else own o k.
Proof.
  induction o as [|[k0 w] o IH]; simpl.
  - reflexivity.
  - destruct (k0 =? key) eqn:E; simpl.
    + apply String.eqb_eq in E; subst k0.
      destruct (key =? k); reflexivity.
    + destruct (k0 =? k) eqn:E'.
      * apply String.eqb_eq in E'; subst k0.
        rewrite String.eqb_sym, E. reflexivity.
      * exact IH.
Qed.

Lemma In_own_set (V : Type) (o : list (string * V)) (key : string) (v : V) e :
  In e (own_set o key v) -> e = (key, v) \/ In e o.
Proof.
  induction o as [|[k0 w] o IH]; simpl.
  - intros [<-|[]]; now left.
  - destruct (k0 =? key); simpl.
    + intros [<-|H]; [now left | right; now right].
    + intros [<-|H]; [right; now left |].
      destruct (IH H) as [->|H']; [now left | right; now right].
Qed.

Lemma keys_own_set (V : Type) (o : list (string * V)) (key : string) (v : V) k :
  In k (map fst (own_set o key v)) -> k = key \/ In k (map fst o).
Proof.
  intros H. apply in_map_iff in H as [[k' v'] [<- H]].
  apply In_own_set in H as [H|H].
  - inversion H; now left.
  - right. apply in_map_iff. now exists (k', v').
Qed.

Lemma NoDup_own_set (V : Type) (o : list (string * V)) (key : string) (v : V) :
  NoDup (map fst o) -> NoDup (map fst (own_set o key v)).
Proof.
  induction o as [|[k0 w] o IH]; simpl; intros H.
  - constructor; [intros [] | constructor].
  - inversion H as [|? ? Hnotin Hnd]; subst.
    destruct (k0 =? key) eqn:E; simpl.
    + apply String.eqb_eq in E; subst k0. now constructor.
    + constructor; [| now apply IH].
      intros Hin. apply keys_own_set in Hin as [->|Hin].
      * now rewrite String.eqb_refl in E.
      * contradiction.
Qed.

Lemma folded_fold_char (c : ascii) :
  let c' := if Ascii.eqb (toLowerCase_ascii c) "-" then "_"%char
            else toLowerCase_ascii c in
  negb (is_upper c') && negb (Ascii.eqb c' "-") = true.
Proof.
  destruct c as [[] [] [] [] [] [] [] []]; reflexivity.
Qed.

Lemma folded_fold_key (key : string) : folded (fold_key key) = true.
Proof.
  unfold folded, fold_key.
  induction key as [|c key IH]; simpl.
  - reflexivity.
  - rewrite IH, andb_true_r. apply folded_fold_char.
Qed.

Lemma fold_left_In (h acc : Headers) (e : string * string) :
  In e (fold_left fold_step h acc) ->
  In e acc \/ exists key, In (key, snd e) h /\ fst e = fold_key key.
Proof.
  revert acc. induction h as [|[key value] h IH]; simpl; intros acc H.
  - now left.
  - apply IH in H as [H|(key' & H & E)].
    + unfold assign in H. destruct (fold_key key =? "__proto__").
      * now left.
      * apply In_own_set in H as [->|H]; [| now left].
        right. exists key. split; [now left | reflexivity].
    + right. exists key'. split; [now right | exact E].
Qed.

Lemma fold_left_NoDup (h acc : Headers) :
  NoDup (map fst acc) -> NoDup (map fst (fold_left fold_step h acc)).
Proof.
  revert acc. induction h as [|[key value] h IH]; simpl; intros acc H.
  - exact H.
  - apply IH. unfold assign. destruct (fold_key key =? "__proto__").
    + exact H.
    + now apply NoDup_own_set.
Qed.

Lemma fold_left_own (h acc : Headers) (k : string) :
  k <> "__proto__" ->
  own (fold_left fold_step h acc) k =
  match last_entry (map fold_entry h) k with
  | Some v => Some v
  | None => own acc k
  end.
Proof.
  intros Hk. revert acc. induction h as [|[key value] h IH]; simpl; intros acc.
  - reflexivity.
  - rewrite IH. destruct (last_entry (map fold_entry h) k); [reflexivity|].
    unfold assign. destruct (fold_key key =? "__proto__") eqn:E.
    + apply String.eqb_eq in E. rewrite E.
      destruct ("__proto__" =? k) eqn:E'; [| reflexivity].
      apply String.eqb_eq in E'. now subst k.
    + rewrite own_own_set. now destruct (fold_key key =? k).
Qed.

Lemma fold_left_proto (h acc : Headers) :
  own acc "__proto__" = None -> own (fold_left fold_step h acc) "__proto__" = None.
Proof.
  revert acc. induction h as [|[key value] h IH]; simpl; intros acc H.
  - exact H.
  - apply IH. unfold assign. destruct (fold_key key =? "__proto__") eqn:E.
    + exact H.
    + rewrite own_own_set, E. exact H.
Qed.


(** Two source keys that fold to one key: the later value is kept, at the
    place of the earlier entry. *)
Example foldHeaders_collision :
  foldHeaders [("X-Id", "1"); ("Accept", "*"); ("x_id", "2")]
  = [("x_id", "2"); ("accept", "*")].
Proof. reflexivity. Qed.


(** ** Running the effects *)

Lemma bind_run (A B : Type) (m : M A) (k : A -> M B) (w : World) :
  bind m k w = k (fst (m w)) (snd (m w)).
Proof. unfold bind. now destruct (m w). Qed.

Ltac run := repeat (rewrite bind_run; cbv beta).

(** ** The field resolver *)

Lemma present_missing (value : JsValue) :
  present value = false <->
  value = JsUndefined \/ value = JsNull \/ value = JsString "".
Proof.
  destruct value; simpl; split; intros H;
    try discriminate; auto;
    try (destruct H as [H|[H|H]]; discriminate).
  - right; right. f_equal. apply String.eqb_eq.
    now destruct (s =? "").
  - destruct H as [H|[H|H]]; try discriminate.
    inversion H; subst. reflexivity.
Qed.

Lemma getValueOrLog_fst (value : JsValue) (fieldName context : string) (w : World) :
  fst (getValueOrLog value fieldName context w) =
  if present value then value else JsNull.
Proof.
  unfold getValueOrLog. destruct (present value); [reflexivity|].
  run. reflexivity.
Qed.

(** C8: the field resolver returns [null] exactly when its input is
    [undefined], [null] or the empty string, and returns every other input
    unchanged, [0] and [false] included; no miss returns a string. *)
Theorem getValueOrLog_spec (value : JsValue) (fieldName context : string) (w : World) :
  let result := fst (getValueOrLog value fieldName context w) in
  (result = JsNull <->
     value = JsUndefined \/ value = JsNull \/ value = JsString "") /\
  (~ (value = JsUndefined \/ value = JsNull \/ value = JsString "") ->
     result = value) /\
  (present value = false -> forall s, result <> JsString s) /\
  fst (getValueOrLog (JsNumber 0) fieldName context w) = JsNumber 0 /\
  fst (getValueOrLog (JsBoolean false) fieldName context w) = JsBoolean false.
Proof.
  cbv zeta. rewrite !getValueOrLog_fst.
  split; [| split; [| split; [| split; reflexivity]]].
  - rewrite <- present_missing. destruct (present value) eqn:E.
    + split; [| discriminate]. intros ->. discriminate.
    + split; reflexivity.
  - rewrite <- present_missing. intros H.
    destruct (present value); [reflexivity | now destruct H].
  - intros -> s. discriminate.
Qed.

(** ** The converter's failures *)

(** C7: [tailEvent2fastly] returns [null] if and only if the event has no
    fetch request or [new URL(request.url)] throws; on every other event it
    returns a record. *)
Theorem tailEvent2fastly_fails_iff (tailEvent : TailEvent) :
  tailEvent2fastly tailEvent = None <->
  opt (ev_event tailEvent) fe_request = None
  \/ exists request, opt (ev_event tailEvent) fe_request = Some request
                     /\ URL_parse (ToString (req_url request)) = None.
Proof.
  unfold tailEvent2fastly.
  destruct (opt (ev_event tailEvent) fe_request) as [request|].
  - destruct (URL_parse (ToString (req_url request))) eqn:E.
    + split; [discriminate|].
      intros [H|(r & H & H')]; [discriminate|].
      inversion H; subst r. congruence.
    + split; [| reflexivity]. intros _. right. now exists request.
  - split; [now left | reflexivity].
Qed.

(** ** [parseInt] after [toString] *)

Lemma digit_facts (c : ascii) :
  is_digit c = true ->
  is_space c = false /\ Ascii.eqb c "-" = false /\ Ascii.eqb c "+" = false
  /\ Ascii.eqb c "x" = false /\ Ascii.eqb c "X" = false.
Proof.
  destruct c as [[] [] [] [] [] [] [] []]; intros H;
    solve [discriminate H | repeat split].
Qed.

Lemma all_digits_uint (u : Decimal.uint) :
  all_chars is_digit (NilEmpty.string_of_uint u) = true.
Proof. induction u; simpl; auto. Qed.

Lemma span_all (p : ascii -> bool) (s : string) :
  all_chars p s = true -> span p s = (s, "").
Proof.
  induction s as [|c s IH]; simpl; [reflexivity|].
  intros H. apply andb_prop in H as [Hc Hs].
  now rewrite Hc, (IH Hs).
Qed.

Lemma digits_value_acc (u : Decimal.uint) (acc : positive) :
  digits_value 10 digit_value (Z.pos acc) (NilEmpty.string_of_uint u)
  = Z.pos (Pos.of_uint_acc u acc).
Proof.
  revert acc.
  induction u; intros acc;
    cbn [NilEmpty.string_of_uint digits_value Pos.of_uint_acc];
    [reflexivity | ..];
    rewrite <- IHu; f_equal;
    match goal with
    | |- context [digit_value ?c] =>
        let v := eval vm_compute in (digit_value c) in
        change (digit_value c) with v
    end; lia.
Qed.

Lemma digits_value_uint (u : Decimal.uint) :
  digits_value 10 digit_value 0 (NilEmpty.string_of_uint u)
  = Z.of_N (Pos.of_uint u).
Proof.
  induction u; cbn [NilEmpty.string_of_uint digits_value Pos.of_uint];
    [reflexivity | exact IHu | ..];
    apply (digits_value_acc u).
Qed.

Lemma no_hex_prefix (ds : string) :
  all_chars is_digit ds = true ->
  starts_with "0x" ds = false /\ starts_with "0X" ds = false.
Proof.
  intros Hds.
  destruct ds as [|c [|b s]]; cbn [starts_with]; try (split; reflexivity).
  - now rewrite !andb_false_r.
  - simpl in Hds. apply andb_prop in Hds as [_ Hds].
    apply andb_prop in Hds as [Hb _].
    destruct (digit_facts b Hb) as (_ & _ & _ & Hx & HX).
    rewrite (Ascii.eqb_sym "x" b), (Ascii.eqb_sym "X" b), Hx, HX.
    now rewrite !andb_false_r.
Qed.

(** [parseInt] on a non-empty string of decimal digits, with or without a
    minus sign in front. *)
Lemma parseInt_digits (neg : bool) (ds : string) :
  ds <> "" -> all_chars is_digit ds = true ->
  parseInt (if neg then String "-" ds else ds)
  = Some (let n := digits_value 10 digit_value 0 ds in
          if neg then (- n)%Z else n).
Proof.
  intros Hne Hds.
  assert (Hsign : sign_part (trim_start (if neg then String "-" ds else ds))
                  = (neg, ds)).
  { destruct ds as [|c s]; [contradiction|].
    simpl in Hds. apply andb_prop in Hds as [Hc _].
    destruct (digit_facts c Hc) as (Hsp & Hm & Hp & _).
    destruct neg; simpl; [reflexivity|].
    rewrite Hsp. cbn [sign_part]. now rewrite Hm, Hp. }
  unfold parseInt. rewrite Hsign.
  destruct (no_hex_prefix ds Hds) as [-> ->]. cbn [orb].
  rewrite span_all by assumption. cbn [fst].
  destruct (ds =? "") eqn:E; [apply String.eqb_eq in E; contradiction|].
  reflexivity.
Qed.

Lemma string_of_uint_nonempty (u : Decimal.uint) :
  u <> Decimal.Nil -> NilEmpty.string_of_uint u <> "".
Proof. destruct u; simpl; intros H; [contradiction | discriminate ..]. Qed.

Lemma Number_toString_pos (p : positive) :
  exists ds, ds <> "" /\ all_chars is_digit ds = true
             /\ digits_value 10 digit_value 0 ds = Z.pos p
             /\ Number_toString (Z.pos p) = ds
             /\ Number_toString (Z.neg p) = String "-" ds.
Proof.
  exists (NilEmpty.string_of_uint (Pos.to_uint p)).
  pose proof (Unsigned.to_uint_nonnil p) as Hnil.
  repeat split.
  - now apply string_of_uint_nonempty.
  - apply all_digits_uint.
  - rewrite digits_value_uint, DecimalPos.Unsigned.of_to. reflexivity.
  - unfold Number_toString. simpl.
    destruct (Pos.to_uint p); [contradiction | reflexivity ..].
  - unfold Number_toString. simpl.
    destruct (Pos.to_uint p); [contradiction | reflexivity ..].
Qed.

(** Reading back the plain decimal rendering of an integer gives the
    integer. *)
Lemma parseInt_Number_toString (z : Z) :
  plain_decimal z -> parseInt (Number_toString z) = Some z.
Proof.
  intros _. destruct z as [|p|p].
  - reflexivity.
  - destruct (Number_toString_pos p) as (ds & Hne & Hds & Hv & -> & _).
    rewrite (parseInt_digits false); [| assumption ..]. simpl. now rewrite Hv.
  - destruct (Number_toString_pos p) as (ds & Hne & Hds & Hv & _ & ->).
    rewrite (parseInt_digits true); [| assumption ..]. simpl. now rewrite Hv.
Qed.

Lemma Number_toString_nonempty (z : Z) : (Number_toString z =? "") = false.
Proof.
  destruct z as [|p|p].
  - reflexivity.
  - destruct (Number_toString_pos p) as (ds & Hne & _ & _ & -> & _).
    now apply String.eqb_neq.
  - destruct (Number_toString_pos p) as (ds & _ & _ & _ & _ & ->).
    reflexivity.
Qed.

(** ** Building a log entry *)

Lemma createCoralogixLog_fst (logData : LogData) (event : TailEvent) (env : Env)
    (type : string) (w : World) :
  exists timestamp w1 w2,
    fst (createCoralogixLog logData event env type w)
    = fst (switch_type
             (base_log timestamp (fst (extractRayId event logData w1)) event env type)
             logData event type w2).
Proof.
  unfold createCoralogixLog. run. now eexists _, _, _.
Qed.

Lemma tailEvent2fastly_status (event : TailEvent) (fastlyLog : FastlyLog) :
  tailEvent2fastly event = Some fastlyLog ->
  response_status (fastly_response fastlyLog)
  = option_map Number_toString (status_of event).
Proof.
  unfold tailEvent2fastly, status_of.
  destruct (opt (ev_event event) fe_request) as [request|]; [| discriminate].
  destruct (URL_parse (ToString (req_url request))); [| discriminate].
  intros H. injection H as <-. reflexivity.
Qed.

Lemma status_severity_toString (status : Z) :
  plain_decimal status ->
  status_severity (Number_toString status)
  = if (500 <=? status)%Z then JsNumber 5
    else if (400 <=? status)%Z then JsNumber 4
    else JsNumber 3.
Proof.
  intros Hplain. unfold status_severity.
  now rewrite (parseInt_Number_toString Hplain).
Qed.

Lemma switch_type_fetch_severity (log : CoralogixLog) (logData : LogData)
    (event : TailEvent) (fastlyLog : FastlyLog) (w : World) :
  tailEvent2fastly event = Some fastlyLog ->
  (forall status, status_of event = Some status -> plain_decimal status) ->
  severity (fst (switch_type log logData event "fetch" w))
  = match status_of event with
    | Some status =>
        if (500 <=? status)%Z then JsNumber 5
        else if (400 <=? status)%Z then JsNumber 4
        else JsNumber 3
    | None => severity log
    end.
Proof.
  intros Hconv Hplain. unfold switch_type. cbn [String.eqb Ascii.eqb Bool.eqb].
  rewrite Hconv, (tailEvent2fastly_status _ Hconv).
  destruct (status_of event) as [status|]; cbn [option_map].
  - rewrite Number_toString_nonempty.
    cbn [fst ret set_severity severity].
    apply status_severity_toString, Hplain. reflexivity.
  - reflexivity.
Qed.

(** C6: for a fetch entry whose conversion succeeds, the severity is 5 when
    the response status is at least 500, 4 when it is at least 400 and below
    500, and 3 otherwise; with no status it stays at the default 3.  The
    status is an integral number that [toString] writes in plain digits
    (magnitude below 10^21), as every HTTP status is. *)
Theorem fetch_severity_by_status (logData : LogData) (event : TailEvent)
    (env : Env) (w : World) (fastlyLog : FastlyLog)
    (Hconv : tailEvent2fastly event = Some fastlyLog)
    (Hplain : forall status, status_of event = Some status -> plain_decimal status) :
  severity (fst (createCoralogixLog logData event env "fetch" w))
  = match status_of event with
    | Some status =>
        if (500 <=? status)%Z then JsNumber 5
        else if (400 <=? status)%Z then JsNumber 4
        else JsNumber 3
    | None => JsNumber 3
    end.
Proof.
  destruct (createCoralogixLog_fst logData event env "fetch" w)
    as (timestamp & w1 & w2 & ->).
  rewrite switch_type_fetch_severity with (fastlyLog := fastlyLog)
    by assumption.
  reflexivity.
Qed.

(** Status 404 gives severity 4. *)
Lemma fetch_severity_404 :
  let event := fetch_only (sample_fetch "https://example.com/missing" None None (Some 404%Z)) in
  severity (fst (createCoralogixLog (fetch_logData (sample_fetch "" None None None))
                   event sample_env "fetch" sample_world))
  = JsNumber 4.
Proof.
  cbv zeta.
  erewrite fetch_severity_by_status;
    [ reflexivity
    | reflexivity
    | intros status H; injection H as <-; reflexivity ].
Defined.

Example fetch_severity_500 :
  severity (fst (createCoralogixLog (fetch_logData (sample_fetch "" None None None))
                   (fetch_only (sample_fetch "https://example.com/" None None (Some 500%Z)))
                   sample_env "fetch" sample_world))
  = JsNumber 5.
Proof. reflexivity. Qed.

Example fetch_severity_200 :
  severity (fst (createCoralogixLog (fetch_logData (sample_fetch "" None None None))
                   sample_event sample_env "fetch" sample_world))
  = JsNumber 3.
Proof. reflexivity. Qed.

(** ** [methodName] *)

(** C10: a fetch entry whose conversion fails has no [methodName] property
    (only the placeholder text is set); when the conversion succeeds
    [methodName] is ['fetch']; on a console entry [methodName] is assigned the
    item's level and on an exception entry it is ['exception']. *)
Theorem methodName_by_type (logData : LogData) (event : TailEvent) (env : Env)
    (w : World) :
  (tailEvent2fastly event = None ->
     methodName (fst (createCoralogixLog logData event env "fetch" w)) = None
     /\ text (fst (createCoralogixLog logData event env "fetch" w))
        = Literal "Failed to convert fetch event") /\
  (tailEvent2fastly event <> None ->
     methodName (fst (createCoralogixLog logData event env "fetch" w))
     = Some (JsString "fetch")) /\
  methodName (fst (createCoralogixLog logData event env "console" w))
  = Some (of_string (ld_level logData)) /\
  methodName (fst (createCoralogixLog logData event env "exception" w))
  = Some (JsString "exception").
Proof.
  destruct (createCoralogixLog_fst logData event env "fetch" w)
    as (t1 & u1 & v1 & ->).
  destruct (createCoralogixLog_fst logData event env "console" w)
    as (t2 & u2 & v2 & ->).
  destruct (createCoralogixLog_fst logData event env "exception" w)
    as (t3 & u3 & v3 & ->).
  unfold switch_type. cbn [String.eqb Ascii.eqb Bool.eqb].
  split; [| split; [| split; reflexivity]].
  - intros Hfail. rewrite Hfail. run. split; reflexivity.
  - intros Hconv.
    destruct (tailEvent2fastly event) as [fastlyLog|]; [| contradiction].
    destruct (response_status (fastly_response fastlyLog)) as [status|];
      [destruct (status =? "") |]; reflexivity.
Qed.

(** A fetch entry for a request whose URL does not parse. *)
Example methodName_invalid_url :
  let event := fetch_only (sample_fetch "not-a-valid-url" (Some []) None None) in
  tailEvent2fastly event = None
  /\ methodName (fst (createCoralogixLog (fetch_logData (sample_fetch "" None None None))
                        event sample_env "fetch" sample_world)) = None.
Proof. split; reflexivity. Qed.

(** ** Severity *)

Lemma switch_type_severity (log : CoralogixLog) (logData : LogData)
    (event : TailEvent) (type : string) (w : World) :
  severity_ok (severity log) ->
  (type = "console" -> Object_prototype (ToString (ld_level logData)) = JsUndefined) ->
  severity_ok (severity (fst (switch_type log logData event type w))).
Proof.
  intros Hlog Hlevel. unfold switch_type.
  destruct (type =? "console") eqn:Ec.
  - apply String.eqb_eq in Ec. specialize (Hlevel Ec).
    cbn [fst ret set_methodName set_text set_severity severity].
    unfold get. set (level := ToString (ld_level logData)) in *.
    cbn [own SEVERITY_MAP].
    destruct ("debug" =? level); [now left|].
    destruct ("info" =? level); [right; now left|].
    destruct ("log" =? level); [right; now left|].
    destruct ("warn" =? level); [right; right; now left|].
    destruct ("error" =? level); [right; right; now right|].
    rewrite Hlevel. right; now left.
  - destruct (type =? "exception").
    + right; right; now right.
    + destruct (type =? "fetch"); [| exact Hlog].
      destruct (tailEvent2fastly event) as [fastlyLog|].
      * destruct (response_status (fastly_response fastlyLog)) as [status|];
          [| exact Hlog].
        destruct (status =? ""); [exact Hlog|].
        cbn [fst ret set_methodName set_text set_severity severity].
        unfold status_severity. destruct (parseInt status) as [n|].
        -- destruct (500 <=? n)%Z; [right; right; now right|].
           destruct (400 <=? n)%Z; [right; right; now left | right; now left].
        -- right; now left.
      * run. exact Hlog.
Qed.

(** C9, as far as the code keeps it, and where it breaks.  An entry's
    severity is one of 1, 3, 4, 5 for an exception or fetch entry and for a
    console entry whose level does not name a property of [Object.prototype];
    a console item whose level is ["constructor"] gets the [Object] function
    as its severity. *)
Theorem severity_range (logData : LogData) (event : TailEvent) (env : Env)
    (type : string) (w : World) :
  ((type = "console" -> Object_prototype (ToString (ld_level logData)) = JsUndefined) ->
   severity_ok (severity (fst (createCoralogixLog logData event env type w)))) /\
  severity (fst (createCoralogixLog (sample_console "constructor") event env
                   "console" w))
  = JsObject "Object" /\
  ~ severity_ok (JsObject "Object").
Proof.
  split; [| split].
  - intros Hlevel.
    destruct (createCoralogixLog_fst logData event env type w)
      as (t & u & v & ->).
    apply switch_type_severity; [right; now left | exact Hlevel].
  - destruct (createCoralogixLog_fst (sample_console "constructor") event env
                "console" w) as (t & u & v & ->).
    reflexivity.
  - intros [H|[H|[H|H]]]; discriminate.
Qed.

(** ** [threadId] *)

Lemma header_string (h : Headers) (key : string) :
  Object_prototype key = JsUndefined ->
  header h key = of_string (own h key).
Proof. unfold header. now destruct (own h key). Qed.

(** A string property that the resolver lets through is truthy, and one it
    rejects comes back as [null]. *)
Lemma resolved_string (o : option string) :
  ToBoolean (if present (of_string o) then of_string o else JsNull)
  = present (of_string o).
Proof.
  destruct o as [s|]; simpl; [| reflexivity].
  destruct (s =? "") eqn:E; simpl; now rewrite ?E.
Qed.

Lemma extractRayId_fst (event : TailEvent) (logData : LogData) (w : World) :
  fst (extractRayId event logData w) =
  match request_of event logData with
  | Some request =>
      match req_headers request with
      | Some requestHeaders =>
          first_present [ header requestHeaders "cf-ray";
                          of_string (opt (req_cf request) cf_ray);
                          of_string (ev_rayId event) ] JsUndefined
      | None => JsUndefined
      end
  | None => JsUndefined
  end.
Proof.
  unfold extractRayId.
  destruct (request_of event logData) as [request|]; [| now run].
  destruct (req_headers request) as [requestHeaders|]; [| now run].
  rewrite (header_string requestHeaders "cf-ray" eq_refl).
  cbn [first_present]. run.
  rewrite getValueOrLog_fst, resolved_string.
  destruct (present (of_string (own requestHeaders "cf-ray"))); [reflexivity|].
  run. rewrite getValueOrLog_fst, resolved_string.
  destruct (present (of_string (opt (req_cf request) cf_ray))); [reflexivity|].
  run. rewrite getValueOrLog_fst, resolved_string.
  destruct (present (of_string (ev_rayId event))); [reflexivity|].
  run. reflexivity.
Qed.

Lemma switch_type_threadId (log : CoralogixLog) (logData : LogData)
    (event : TailEvent) (type : string) (w : World) :
  threadId (fst (switch_type log logData event type w)) = threadId log.
Proof.
  unfold switch_type.
  destruct (type =? "console"); [reflexivity|].
  destruct (type =? "exception"); [reflexivity|].
  destruct (type =? "fetch"); [| reflexivity].
  destruct (tailEvent2fastly event) as [fastlyLog|]; [| now run].
  destruct (response_status (fastly_response fastlyLog)) as [status|];
    [destruct (status =? "") |]; reflexivity.
Qed.

Lemma first_present_or (a b c : option string) (fallback : JsValue) :
  first_present [of_string a; of_string b; of_string c] JsUndefined ||| fallback
  = first_present [of_string a; of_string b; of_string c] fallback.
Proof.
  unfold js_or.
  destruct a as [[|x a]|], b as [[|y b]|], c as [[|z c]|]; reflexivity.
Qed.

(** C2, amended.  The request is the event's fetch request or, failing that,
    the item's own.  When there is a request with a headers object, the
    [threadId] is the first present value among the [cf-ray] header, [cf.ray]
    and the event's [rayId], else the [scriptName].  When there is no request,
    or the request has no headers object, the [threadId] is the [scriptName],
    whatever the event's [rayId]. *)
Theorem threadId_resolution (logData : LogData) (event : TailEvent) (env : Env)
    (type : string) (w : World) :
  threadId (fst (createCoralogixLog logData event env type w)) =
  match request_of event logData with
  | Some request =>
      match req_headers request with
      | Some requestHeaders =>
          first_present [ header requestHeaders "cf-ray";
                          of_string (opt (req_cf request) cf_ray);
                          of_string (ev_rayId event) ]
                        (of_string (ev_scriptName event))
      | None => of_string (ev_scriptName event)
      end
  | None => of_string (ev_scriptName event)
  end.
Proof.
  destruct (createCoralogixLog_fst logData event env type w)
    as (timestamp & w1 & w2 & ->).
  rewrite switch_type_threadId. cbn [base_log threadId].
  rewrite extractRayId_fst.
  destruct (request_of event logData) as [request|]; [| reflexivity].
  destruct (req_headers request) as [requestHeaders|]; [| reflexivity].
  rewrite (header_string requestHeaders "cf-ray" eq_refl).
  apply first_present_or.
Qed.

(** C2 as stated fails: a console item of an event that has no fetch request
    but carries a [rayId] gets the [scriptName] as its [threadId], not the
    [rayId]. *)
Lemma threadId_without_request :
  let event := mkTailEvent (Some "forward") (Some [sample_console "log"]) None
                           None (Some "8f2a6c0d1e5b3a7c") None in
  let entry := fst (createCoralogixLog (sample_console "log") event sample_env
                      "console" sample_world) in
  request_of event (sample_console "log") = None
  /\ ev_rayId event = Some "8f2a6c0d1e5b3a7c"
  /\ threadId entry = JsString "forward"
  /\ threadId entry <> JsString "8f2a6c0d1e5b3a7c".
Proof.
  cbv zeta. repeat split. discriminate.
Qed.

(** The same with a request that has no headers object. *)
Example threadId_without_headers :
  let fe := mkFetchEvent (Some (mkRequest (Some "GET") (Some "https://example.com/")
                                          None None)) None in
  let event := mkTailEvent (Some "forward") None None (Some fe)
                           (Some "8f2a6c0d1e5b3a7c") None in
  threadId (fst (createCoralogixLog (fetch_logData fe) event sample_env
                   "fetch" sample_world))
  = JsString "forward".
Proof. reflexivity. Qed.

(** With request headers, the header wins over [cf.ray] and [rayId]. *)
Example threadId_sample :
  threadId (fst (createCoralogixLog (sample_console "log") sample_event sample_env
                   "console" sample_world))
  = JsString "8f2a6c0d1e5b3a7c".
Proof. reflexivity. Qed.

(** ** The converted record *)

(** [parseFloat(x) || undefined] *)
Lemma parse_or_undefined (p : float) :
  JsNumber p ||| JsUndefined
  = if PrimFloat.is_nan p || PrimFloat.is_zero p then JsUndefined else JsNumber p.
Proof.
  unfold js_or. simpl.
  now destruct (PrimFloat.is_zero p), (PrimFloat.is_nan p).
Qed.

Lemma tailEvent2fastly_geopoint (event : TailEvent) (request : Request)
    (fastlyLog : FastlyLog) :
  opt (ev_event event) fe_request = Some request ->
  tailEvent2fastly event = Some fastlyLog ->
  geoip_location_geopoint (cdn_originating_ip_geoip (fastly_cdn fastlyLog))
  = mkGeopoint
      (JsNumber (parseFloat (ToString (opt (req_cf request) cf_latitude))) ||| JsUndefined)
      (JsNumber (parseFloat (ToString (opt (req_cf request) cf_longitude))) ||| JsUndefined).
Proof.
  unfold tailEvent2fastly. intros ->. cbn [opt].
  destruct (URL_parse (ToString (req_url request))); [| discriminate].
  intros H. injection H as <-. reflexivity.
Qed.

(** C3, as far as the code keeps it, and where it breaks.  On a converted
    event [lat] is the number parsed from [cf.latitude] unless that number is
    [NaN] or a zero, in which cases it is [undefined]; the same for [lon] and
    [cf.longitude].  For [cf.latitude = "0"] the parse yields the number 0,
    and [lat] is [undefined]. *)
Theorem geopoint_parse (event : TailEvent) (request : Request)
    (fastlyLog : FastlyLog) :
  (opt (ev_event event) fe_request = Some request ->
   tailEvent2fastly event = Some fastlyLog ->
   let geopoint :=
     geoip_location_geopoint (cdn_originating_ip_geoip (fastly_cdn fastlyLog)) in
   let latitude := parseFloat (ToString (opt (req_cf request) cf_latitude)) in
   let longitude := parseFloat (ToString (opt (req_cf request) cf_longitude)) in
   lat geopoint = (if PrimFloat.is_nan latitude || PrimFloat.is_zero latitude
                   then JsUndefined else JsNumber latitude)
   /\ lon geopoint = (if PrimFloat.is_nan longitude || PrimFloat.is_zero longitude
                      then JsUndefined else JsNumber longitude)) /\
  (let cf := mkCf None None None None None None None (Some "0") (Some "-0.0")
                  None None None None in
   let equator := fetch_only (sample_fetch "https://example.com/" None (Some cf) None) in
   PrimFloat.is_nan (parseFloat "0") = false
   /\ option_map (fun f => geoip_location_geopoint
                             (cdn_originating_ip_geoip (fastly_cdn f)))
                 (tailEvent2fastly equator)
      = Some (mkGeopoint JsUndefined JsUndefined)).
Proof.
  split.
  - intros Hreq Hconv. cbv zeta.
    rewrite (tailEvent2fastly_geopoint _ Hreq Hconv). cbn [lat lon].
    now rewrite !parse_or_undefined.
  - cbv zeta. split; reflexivity.
Qed.

(** The conversion test's coordinates, and a latitude that does not parse. *)
Example geopoint_sample :
  option_map (fun f => geoip_location_geopoint
                         (cdn_originating_ip_geoip (fastly_cdn f)))
             (tailEvent2fastly sample_event)
  = Some (mkGeopoint (JsNumber 0x1.a330dd82fd75ep+5) (JsNumber 0x1.a219e30014f8bp+3))
  /\ lat (mkGeopoint (JsNumber (parseFloat "not-a-number") ||| JsUndefined) JsUndefined)
     = JsUndefined.
Proof. split; reflexivity. Qed.

Lemma remove_first_search (u : URL) :
  remove_first "?" (search u)
  = match url_query u with Some q => q | None => "" end.
Proof.
  unfold search. destruct (url_query u) as [q|]; [| reflexivity].
  destruct (q =? "") eqn:E; [| reflexivity].
  apply String.eqb_eq in E. now subst q.
Qed.

(** C4, amended.  On a converted event the request section has: [host], the
    request headers' [host] entry when that is a non-empty string, else the
    host name of the parsed URL, which leaves the port out; [url], the URL's
    path; [qs], the URL's query without the leading [?]. *)
Theorem request_section (event : TailEvent) (request : Request) (parsedUrl : URL)
    (Hrequest : opt (ev_event event) fe_request = Some request)
    (Hurl : URL_parse (ToString (req_url request)) = Some parsedUrl) :
  exists fastlyLog,
    tailEvent2fastly event = Some fastlyLog /\
    let headers := match req_headers request with Some h => h | None => [] end in
    let section := fastly_request fastlyLog in
    (forall value, own headers "host" = Some value -> value <> "" ->
       request_host section = JsString value) /\
    (own headers "host" = None \/ own headers "host" = Some "" ->
       request_host section = JsString (hostname parsedUrl)) /\
    request_url section = pathname parsedUrl /\
    request_qs section
    = match url_query parsedUrl with Some q => q | None => "" end.
Proof.
  unfold tailEvent2fastly. rewrite Hrequest. cbn [opt]. rewrite Hurl.
  eexists. split; [reflexivity|].
  cbn [fastly_request request_host request_url request_qs].
  set (headers := match req_headers request with Some h => h | None => [] end).
  rewrite (header_string headers "host" eq_refl).
  repeat split.
  - intros value -> Hne. unfold js_or. simpl.
    apply String.eqb_neq in Hne. now rewrite Hne.
  - intros [->| ->]; reflexivity.
  - apply remove_first_search.
Qed.

Lemma request_section_sample :
  exists fastlyLog,
    tailEvent2fastly sample_event = Some fastlyLog /\
    (forall value, own sample_headers "host" = Some value -> value <> "" ->
       request_host (fastly_request fastlyLog) = JsString value) /\
    (own sample_headers "host" = None \/ own sample_headers "host" = Some "" ->
       request_host (fastly_request fastlyLog) = JsString "minivelos.bike") /\
    request_url (fastly_request fastlyLog) = "/bikes/lars-moulton-tsr" /\
    request_qs (fastly_request fastlyLog) = "".
Proof.
  exact (@request_section sample_event sample_request
           (mkURL "https" "minivelos.bike" None "/bikes/lars-moulton-tsr" None None)
           eq_refl eq_refl).
Defined.

(** C4 as stated fails: with no [host] header and the URL
    [https://example.com:8443/api/data?param=value], whose host component is
    [example.com:8443], [request.host] is [example.com]. *)
Lemma request_host_drops_port :
  let url := "https://example.com:8443/api/data?param=value" in
  let event := fetch_only (sample_fetch url (Some []) None (Some 200%Z)) in
  option_map (fun u => JsString (host u)) (URL_parse url)
  = Some (JsString "example.com:8443")
  /\ option_map (fun f => request_host (fastly_request f)) (tailEvent2fastly event)
     = Some (JsString "example.com")
  /\ JsString "example.com" <> JsString "example.com:8443"
  /\ option_map (fun f => (request_url (fastly_request f), request_qs (fastly_request f)))
                (tailEvent2fastly event)
     = Some ("/api/data", "param=value").
Proof. cbv zeta. repeat split. discriminate. Qed.

(** ** Dispatch *)

Lemma quiet_ret (A : Type) (a : A) : quiet (ret a).
Proof. now intros w. Qed.

Lemma quiet_bind (A B : Type) (m : M A) (k : A -> M B) :
  quiet m -> (forall a, quiet (k a)) -> quiet (bind m k).
Proof. intros Hm Hk w. rewrite bind_run, Hk. apply Hm. Qed.

Lemma quiet_console_log (level message : string) :
  quiet (console_log level message).
Proof. now intros w. Qed.

Lemma quiet_Math_random : quiet Math_random.
Proof. now intros w. Qed.

Lemma quiet_Date_now : quiet Date_now.
Proof. now intros w. Qed.

Lemma quiet_if (A : Type) (b : bool) (m1 m2 : M A) :
  quiet m1 -> quiet m2 -> quiet (if b then m1 else m2).
Proof. now destruct b. Qed.

Create HintDb quiet.
#[local] Hint Resolve quiet_ret quiet_console_log quiet_Math_random
  quiet_Date_now : quiet.
#[local] Hint Extern 2 (quiet (bind _ _)) => apply quiet_bind; [| intros ?] : quiet.
#[local] Hint Extern 2 (quiet (if _ then _ else _)) => apply quiet_if : quiet.
#[local] Hint Extern 1 (quiet (console_warn _)) => apply quiet_console_log : quiet.
#[local] Hint Extern 3 (quiet (match ?x with _ => _ end)) => destruct x : quiet.

Lemma quiet_getValueOrLog (value : JsValue) (fieldName context : string) :
  quiet (getValueOrLog value fieldName context).
Proof. unfold getValueOrLog. auto 10 with quiet. Qed.

#[local] Hint Resolve quiet_getValueOrLog : quiet.

Lemma quiet_extractRayId (event : TailEvent) (logData : LogData) :
  quiet (extractRayId event logData).
Proof. unfold extractRayId. auto 20 with quiet. Qed.

Lemma quiet_switch_type (log : CoralogixLog) (logData : LogData)
    (event : TailEvent) (type : string) :
  quiet (switch_type log logData event type).
Proof. unfold switch_type. auto 20 with quiet. Qed.

Lemma quiet_createCoralogixLog (logData : LogData) (event : TailEvent)
    (env : Env) (type : string) :
  quiet (createCoralogixLog logData event env type).
Proof.
  unfold createCoralogixLog, timestamp_or_now.
  apply quiet_bind; [auto 10 with quiet | intros timestamp].
  apply quiet_bind; [apply quiet_extractRayId | intros rayId].
  apply quiet_bind; [auto 10 with quiet | intros _].
  apply quiet_switch_type.
Qed.

Lemma quiet_for_of (A S : Type) (xs : list A) (body : S -> A -> M S) (s : S) :
  (forall s x, quiet (body s x)) -> quiet (for_of xs body s).
Proof.
  intros Hbody. revert s. induction xs as [|x xs IH]; intros s; simpl.
  - apply quiet_ret.
  - apply quiet_bind; [apply Hbody | intros s'; apply IH].
Qed.

(** Pushing one entry per item. *)
Lemma for_of_push_length (A : Type) (items : list A) (entry : A -> M CoralogixLog)
    (logs : list CoralogixLog) (w : World) :
  length (fst (for_of items
                 (fun logs item => e <- entry item ;; ret (logs ++ [e])) logs w))
  = length logs + length items.
Proof.
  revert logs w. induction items as [|item items IH]; intros logs w; simpl.
  - lia.
  - run. rewrite IH. cbn [fst ret]. rewrite List.length_app. simpl. lia.
Qed.

Lemma quiet_push (A : Type) (entry : A -> M CoralogixLog) :
  (forall item, quiet (entry item)) ->
  forall (logs : list CoralogixLog) (item : A),
    quiet (e <- entry item ;; ret (logs ++ [e])).
Proof. intros H logs item. apply quiet_bind; [apply H | intros e; apply quiet_ret]. Qed.

Lemma bind_length (A : Type) (m : M (list A)) (k : list A -> M (list A))
    (n d : nat) (w : World) :
  (forall w, length (fst (m w)) = n) ->
  (forall a w, length (fst (k a w)) = length a + d) ->
  length (fst (bind m k w)) = n + d.
Proof. intros Hm Hk. now rewrite bind_run, Hk, Hm. Qed.

Lemma tail_event_length (env : Env) (logs : list CoralogixLog) (event : TailEvent)
    (w : World) :
  length (fst (tail_event env logs event w)) = length logs + contribution event.
Proof.
  unfold tail_event, contribution.
  rewrite !Nat.add_assoc, <- Nat.add_assoc.
  apply bind_length.
  - intros w1. destruct (ev_logs event) as [items|].
    + apply for_of_push_length.
    + simpl. lia.
  - intros logs1 w1. rewrite Nat.add_assoc. apply bind_length.
    + intros w2. destruct (ev_exceptions event) as [items|].
      * apply for_of_push_length.
      * simpl. lia.
    + intros logs2 w2. destruct (ev_event event) as [fe|]; cbn [opt].
      * destruct (fe_request fe) as [request|].
        -- run. cbn [fst ret]. rewrite List.length_app. simpl. lia.
        -- cbn [fst ret]. lia.
      * cbn [fst ret]. lia.
Qed.

Lemma quiet_tail_event (env : Env) (logs : list CoralogixLog) (event : TailEvent) :
  quiet (tail_event env logs event).
Proof.
  unfold tail_event.
  apply quiet_bind; [| intros logs1; apply quiet_bind; [| intros logs2]].
  - destruct (ev_logs event); [| apply quiet_ret].
    apply quiet_for_of. intros s x.
    apply quiet_push. intros item. apply quiet_createCoralogixLog.
  - destruct (ev_exceptions event); [| apply quiet_ret].
    apply quiet_for_of. intros s x.
    apply quiet_push. intros item. apply quiet_createCoralogixLog.
  - destruct (ev_event event) as [fe|]; [| apply quiet_ret].
    destruct (fe_request fe); [| apply quiet_ret].
    apply quiet_push with (entry := fun _ : unit => _) (item := tt).
    intros _. apply quiet_createCoralogixLog.
Qed.

Lemma for_of_tail_event_length (env : Env) (batch : list TailEvent)
    (logs : list CoralogixLog) (w : World) :
  length (fst (for_of batch (tail_event env) logs w))
  = length logs + list_sum (map contribution batch).
Proof.
  revert logs w. induction batch as [|event batch IH]; intros logs w; simpl.
  - lia.
  - run. rewrite IH, tail_event_length. lia.
Qed.

Lemma tail_batch_delivered (env : Env) (batch : list TailEvent) (w : World) :
  delivered (snd (tail_batch env batch w))
  = delivered w + list_sum (map contribution batch).
Proof.
  unfold tail_batch, delivered. run.
  pose proof (for_of_tail_event_length env batch [] w) as Hlen.
  pose proof (quiet_for_of batch (tail_event env) []
                (fun s x => quiet_tail_event env s x) w) as Hquiet.
  simpl in Hlen. rewrite <- Hlen.
  destruct (0 <? length (fst (for_of batch (tail_event env) [] w)))%nat eqn:E.
  - cbn [waitUntil_sendToCoralogix snd waiting].
    rewrite Hquiet, concat_app, List.length_app. simpl. rewrite List.app_nil_r. reflexivity.
  - apply Nat.ltb_ge in E. cbn [ret snd]. rewrite Hquiet. lia.
Qed.

Lemma for_of_batches_delivered (env : Env) (batches : list (list TailEvent))
    (u : unit) (w : World) :
  delivered (snd (for_of batches (fun _ batch => tail_batch env batch) u w))
  = delivered w + list_sum (map contribution (concat batches)).
Proof.
  revert u w. induction batches as [|batch batches IH]; intros u w; simpl.
  - lia.
  - run. rewrite IH, tail_batch_delivered, map_app, list_sum_app. lia.
Qed.

(** The batches partition the events, in order. *)
Lemma batches_from_concat (A : Type) (events : list A) (batchSize fuel i : nat) :
  0 < batchSize -> length events - i <= fuel ->
  concat (batches_from fuel i batchSize events) = skipn i events.
Proof.
  intros Hsize. revert i. induction fuel as [|fuel IH]; intros i Hfuel; simpl.
  - symmetry. apply skipn_all2. lia.
  - destruct (i <? length events)%nat eqn:E.
    + apply Nat.ltb_lt in E. simpl. rewrite IH by lia.
      unfold slice. replace (i + batchSize - i) with batchSize by lia.
      rewrite Nat.add_comm, <- skipn_skipn. apply firstn_skipn.
    + apply Nat.ltb_ge in E. symmetry. now apply skipn_all2.
Qed.

(** C1, amended.  One tail event contributes one entry per console item, one
    per exception item, and one when its fetch sub-event has a request (a
    fetch sub-event without a request contributes none); with the
    configuration present, the entries that [tail] hands over for delivery
    add up to the contributions of the events. *)
Theorem tail_contribution (events : list TailEvent) (env : Env)
    (logs : list CoralogixLog) (event : TailEvent) (w : World) :
  length (fst (tail_event env logs event w)) = length logs + contribution event /\
  (configured env = true ->
   delivered (snd (tail events env w))
   = delivered w + list_sum (map contribution events)).
Proof.
  split; [apply tail_event_length|].
  unfold configured, tail. intros Hconf.
  apply andb_prop in Hconf as [-> ->]. cbn [negb orb].
  rewrite for_of_batches_delivered, batches_from_concat by lia.
  reflexivity.
Qed.

(** C1 as stated fails: an event whose fetch sub-event has no request, and
    that has no console or exception item, contributes no entry, and [tail]
    schedules no delivery for it. *)
Lemma fetch_without_request_contributes_nothing :
  let fe := mkFetchEvent None (Some (mkResponse (Some 200%Z) None)) in
  let event := mkTailEvent (Some "forward") (Some []) (Some []) (Some fe) None None in
  ev_event event = Some fe
  /\ contribution_as_stated event = 1
  /\ fst (tail_event sample_env [] event sample_world) = []
  /\ waiting (snd (tail [event] sample_env sample_world)) = []
  /\ length (fst (tail_event sample_env [] event sample_world))
     <> contribution_as_stated event.
Proof. cbv zeta. repeat split. discriminate. Qed.

(** A console item, an exception item and a fetch request on one event give
    three entries, one per category, delivered together. *)
Example three_categories :
  let item := sample_console "warn" in
  let event := mkTailEvent (Some "forward") (Some [item]) (Some [item])
                 (ev_event sample_event) None None in
  map (fun batch => map category batch)
      (waiting (snd (tail [event] sample_env sample_world)))
  = [["console"; "exception"; "fetch"]].
Proof. reflexivity. Qed.

(** 250 events go out in batches of 100, 100 and 50. *)
Example batches_of_250 :
  map (@length nat) (batches_from 250 0 100 (seq 0 250)) = [100; 100; 50]
  /\ batches_from 0 0 100 (@nil nat) = [].
Proof. split; reflexivity. Qed.

(** ** Batches *)

Lemma batches_from_sizes (A : Type) (events : list A) (batchSize fuel i : nat) :
  0 < batchSize ->
  Forall (fun batch => 0 < length batch <= batchSize)
         (batches_from fuel i batchSize events).
Proof.
  intros Hsize. revert i. induction fuel as [|fuel IH]; intros i; simpl.
  - constructor.
  - destruct (i <? length events)%nat eqn:E; [| constructor].
    apply Nat.ltb_lt in E. constructor; [| apply IH].
    unfold slice. rewrite length_firstn, length_skipn. lia.
Qed.

(** The batches that [tail] cuts partition the events in their order, and
    each batch holds between 1 and 100 events; no events, no batch. *)
Theorem batches_partition (events : list TailEvent) :
  let batches := batches_from (length events) 0 100 events in
  concat batches = events
  /\ Forall (fun batch => 0 < length batch <= 100) batches
  /\ batches_from 0 0 100 (@nil TailEvent) = [].
Proof.
  cbv zeta. split; [| split].
  - now rewrite batches_from_concat by lia.
  - apply batches_from_sizes. lia.
  - reflexivity.
Qed.

(** ** Names *)

Lemma switch_type_names (log : CoralogixLog) (logData : LogData)
    (event : TailEvent) (type : string) (w : World) :
  let entry := fst (switch_type log logData event type w) in
  applicationName entry = applicationName log
  /\ subsystemName entry = subsystemName log
  /\ computerName entry = computerName log
  /\ category entry = category log.
Proof.
  cbv zeta. unfold switch_type.
  destruct (type =? "console"); [repeat split|].
  destruct (type =? "exception"); [repeat split|].
  destruct (type =? "fetch"); [| repeat split].
  destruct (tailEvent2fastly event) as [fastlyLog|]; [| run; repeat split].
  destruct (response_status (fastly_response fastlyLog)) as [status|];
    [destruct (status =? "") |]; repeat split.
Qed.

(** Every entry takes [applicationName] from the configuration, with
    ['cloudflare-tail'] as the fallback, [computerName] from the event's
    [scriptName] with no fallback, [subsystemName] from the [scriptName] with
    the configured subsystem name as the fallback, and [category] from the
    kind of entry. *)
Theorem names_policy (logData : LogData) (event : TailEvent) (env : Env)
    (type : string) (w : World) :
  let entry := fst (createCoralogixLog logData event env type w) in
  applicationName entry
  = of_string (APPLICATION_NAME env) ||| JsString "cloudflare-tail"
  /\ computerName entry = of_string (ev_scriptName event)
  /\ subsystemName entry
     = of_string (ev_scriptName event) ||| of_string (SUBSYSTEM_NAME env)
  /\ category entry = type
  /\ (ev_scriptName event = None ->
      computerName entry = JsUndefined
      /\ subsystemName entry = of_string (SUBSYSTEM_NAME env)).
Proof.
  cbv zeta.
  destruct (createCoralogixLog_fst logData event env type w)
    as (timestamp & w1 & w2 & ->).
  destruct (switch_type_names
              (base_log timestamp (fst (extractRayId event logData w1)) event env type)
              logData event type w2) as (-> & -> & -> & ->).
  cbn [base_log applicationName subsystemName computerName category].
  split; [reflexivity|]. split; [reflexivity|]. split; [reflexivity|].
  split; [reflexivity|]. intros E. rewrite E. split; reflexivity.
Qed.

(** * Further properties *)

(** ** Timestamps and what an entry depends on *)

Lemma createCoralogixLog_run (logData : LogData) (event : TailEvent) (env : Env)
    (type : string) (w : World) :
  exists w1 w2,
    fst (createCoralogixLog logData event env type w)
    = fst (switch_type
             (base_log (fst (timestamp_or_now logData w))
                       (fst (extractRayId event logData w1)) event env type)
             logData event type w2).
Proof.
  unfold createCoralogixLog. run. now eexists _, _.
Qed.

Lemma switch_type_untimed (log : CoralogixLog) (logData : LogData)
    (event : TailEvent) (type : string) (w w' : World) :
  untimed (fst (switch_type log logData event type w))
  = untimed (fst (switch_type (untimed log) logData event type w')).
Proof.
  unfold switch_type.
  destruct (type =? "console"); [reflexivity|].
  destruct (type =? "exception"); [reflexivity|].
  destruct (type =? "fetch"); [| reflexivity].
  destruct (tailEvent2fastly event) as [fastlyLog|]; [| now run].
  destruct (response_status (fastly_response fastlyLog)) as [status|];
    [destruct (status =? "") |]; reflexivity.
Qed.

Lemma switch_type_timestamp (log : CoralogixLog) (logData : LogData)
    (event : TailEvent) (type : string) (w : World) :
  timestamp (fst (switch_type log logData event type w)) = timestamp log.
Proof.
  unfold switch_type.
  destruct (type =? "console"); [reflexivity|].
  destruct (type =? "exception"); [reflexivity|].
  destruct (type =? "fetch"); [| reflexivity].
  destruct (tailEvent2fastly event) as [fastlyLog|]; [| now run].
  destruct (response_status (fastly_response fastlyLog)) as [status|];
    [destruct (status =? "") |]; reflexivity.
Qed.

(** An entry's timestamp is the item's own timestamp when that is a non-zero
    number; an item with no timestamp, or with timestamp 0, is stamped with
    the current time ([0] is falsy in [logData.timestamp || Date.now()]). *)
Theorem timestamp_rule (logData : LogData) (event : TailEvent) (env : Env)
    (type : string) (w : World) :
  timestamp (fst (createCoralogixLog logData event env type w))
  = match ld_timestamp logData with
    | Some t => if (t =? 0)%Z then clock w else t
    | None => clock w
    end.
Proof.
  destruct (createCoralogixLog_run logData event env type w) as (w1 & w2 & ->).
  rewrite switch_type_timestamp. cbn [base_log timestamp].
  unfold timestamp_or_now.
  destruct (ld_timestamp logData) as [t|]; [destruct (t =? 0)%Z |]; reflexivity.
Qed.

Lemma untimed_createCoralogixLog (logData : LogData) (event : TailEvent)
    (env : Env) (type : string) (w w' : World) :
  untimed (fst (createCoralogixLog logData event env type w))
  = untimed (fst (createCoralogixLog logData event env type w')).
Proof.
  destruct (createCoralogixLog_run logData event env type w) as (w1 & w2 & ->).
  destruct (createCoralogixLog_run logData event env type w') as (w1' & w2' & ->).
  rewrite (switch_type_untimed _ logData event type w2 w2').
  rewrite (switch_type_untimed (base_log (fst (timestamp_or_now logData w')) _ _ _ _)
             logData event type w2' w2').
  now rewrite !extractRayId_fst.
Qed.

(** Apart from its timestamp, an entry is determined by the item, the event,
    the configuration and the type: it does not depend on the clock, on what
    [Math.random] returns, or on what was logged or scheduled before. *)
Theorem entry_independent_of_world (logData : LogData) (event : TailEvent)
    (env : Env) (type : string) (w w' : World) :
  untimed (fst (createCoralogixLog logData event env type w))
  = untimed (fst (createCoralogixLog logData event env type w'))
  /\ untimed (fst (createCoralogixLog logData event env type w))
     = entry logData event env type.
Proof. split; apply untimed_createCoralogixLog. Qed.

(** ** What [tail] hands over *)

Lemma for_of_push_entries (items : list LogData) (event : TailEvent) (env : Env)
    (type : string) (logs : list CoralogixLog) (w : World) :
  map untimed
      (fst (for_of items
              (fun logs item =>
                 e <- createCoralogixLog item event env type ;; ret (logs ++ [e]))
              logs w))
  = map untimed logs ++ map (fun item => entry item event env type) items.
Proof.
  revert logs w. induction items as [|item items IH]; intros logs w; simpl.
  - now rewrite List.app_nil_r.
  - run. rewrite IH. cbn [fst ret].
    rewrite map_app, <- app_assoc. simpl.
    now rewrite (untimed_createCoralogixLog item event env type w sample_world).
Qed.

Lemma bind_entries (m : M (list CoralogixLog))
    (k : list CoralogixLog -> M (list CoralogixLog))
    (a d : list CoralogixLog) (w : World) :
  (forall w, map untimed (fst (m w)) = a) ->
  (forall x w, map untimed (fst (k x w)) = map untimed x ++ d) ->
  map untimed (fst (bind m k w)) = a ++ d.
Proof. intros Hm Hk. now rewrite bind_run, Hk, Hm. Qed.

Lemma tail_event_entries (env : Env) (logs : list CoralogixLog) (event : TailEvent)
    (w : World) :
  map untimed (fst (tail_event env logs event w))
  = map untimed logs ++ event_entries env event.
Proof.
  unfold tail_event, event_entries.
  rewrite app_assoc. apply bind_entries.
  - intros w1. destruct (ev_logs event) as [items|].
    + apply for_of_push_entries.
    + simpl. now rewrite List.app_nil_r.
  - intros logs1 w1. rewrite app_assoc. apply bind_entries.
    + intros w2. destruct (ev_exceptions event) as [items|].
      * apply for_of_push_entries.
      * simpl. now rewrite List.app_nil_r.
    + intros logs2 w2. destruct (ev_event event) as [fe|].
      * destruct (fe_request fe) as [request|].
        -- run. cbn [fst ret]. rewrite map_app. simpl.
           now rewrite (untimed_createCoralogixLog (fetch_logData fe) event env
                          "fetch" w2 sample_world).
        -- simpl. now rewrite List.app_nil_r.
      * simpl. now rewrite List.app_nil_r.
Qed.

Lemma for_of_tail_event_entries (env : Env) (batch : list TailEvent)
    (logs : list CoralogixLog) (w : World) :
  map untimed (fst (for_of batch (tail_event env) logs w))
  = map untimed logs ++ flat_map (event_entries env) batch.
Proof.
  revert logs w. induction batch as [|event batch IH]; intros logs w; simpl.
  - now rewrite List.app_nil_r.
  - run. now rewrite IH, tail_event_entries, app_assoc.
Qed.

Lemma tail_batch_waiting (env : Env) (batch : list TailEvent) (w : World) :
  map (map untimed) (waiting (snd (tail_batch env batch w)))
  = map (map untimed) (waiting w)
    ++ filter (fun logs => (0 <? length logs)%nat)
              [flat_map (event_entries env) batch].
Proof.
  unfold tail_batch. run.
  pose proof (for_of_tail_event_entries env batch [] w) as Hentries.
  pose proof (quiet_for_of batch (tail_event env) []
                (fun s x => quiet_tail_event env s x) w) as Hquiet.
  simpl in Hentries. cbn [filter]. rewrite <- Hentries, length_map.
  destruct (0 <? length (fst (for_of batch (tail_event env) [] w)))%nat.
  - cbn [waitUntil_sendToCoralogix snd waiting].
    now rewrite Hquiet, map_app.
  - cbn [ret snd]. now rewrite Hquiet, List.app_nil_r.
Qed.

Lemma for_of_batches_waiting (env : Env) (batches : list (list TailEvent))
    (u : unit) (w : World) :
  map (map untimed)
      (waiting (snd (for_of batches (fun _ batch => tail_batch env batch) u w)))
  = map (map untimed) (waiting w)
    ++ filter (fun logs => (0 <? length logs)%nat)
              (map (flat_map (event_entries env)) batches).
Proof.
  revert u w. induction batches as [|batch batches IH]; intros u w.
  - simpl. now rewrite List.app_nil_r.
  - cbn [for_of]. run. rewrite IH, tail_batch_waiting, <- app_assoc.
    f_equal. cbn [map filter].
    now destruct (0 <? length (flat_map (event_entries env) batch))%nat.
Qed.

(** With the configuration present, [tail] hands over one array of entries
    per batch of 100 events, in the order of the batches, and none for a
    batch that yields no entry.  Apart from timestamps, the array of a batch
    holds, event by event in the order received, the entries of the event's
    console items, then of its exception items, then its fetch entry.  So no
    delivery is empty and there are at most as many deliveries as batches. *)
Theorem tail_deliveries (events : list TailEvent) (env : Env) (w : World)
    (Hconfigured : configured env = true) :
  let batches := batches_from (length events) 0 100 events in
  let handed := filter (fun logs => (0 <? length logs)%nat)
                       (map (flat_map (event_entries env)) batches) in
  map (map untimed) (waiting (snd (tail events env w)))
  = map (map untimed) (waiting w) ++ handed
  /\ Forall (fun logs => logs <> []) handed
  /\ length handed <= length batches.
Proof.
  cbv zeta. split; [| split].
  - unfold configured in Hconfigured. unfold tail.
    apply andb_prop in Hconfigured as [-> ->]. cbn [negb orb].
    apply for_of_batches_waiting.
  - apply Forall_forall. intros logs Hin.
    apply filter_In in Hin as [_ Hlen].
    apply Nat.ltb_lt in Hlen. now destruct logs.
  - rewrite <- (length_map (flat_map (event_entries env))).
    apply filter_length_le.
Qed.

Lemma tail_deliveries_sample :
  let events := [sample_event; sample_event] in
  let batches := batches_from (length events) 0 100 events in
  let handed := filter (fun logs => (0 <? length logs)%nat)
                       (map (flat_map (event_entries sample_env)) batches) in
  map (map untimed) (waiting (snd (tail events sample_env sample_world)))
  = map (map untimed) (waiting sample_world) ++ handed
  /\ Forall (fun logs => logs <> []) handed
  /\ length handed <= length batches.
Proof.
  exact (@tail_deliveries [sample_event; sample_event] sample_env sample_world
           eq_refl).
Defined.

(** Without the API key or without the endpoint, [tail] writes one line to
    [console.error] and does nothing else: no entry is built, nothing is
    scheduled, whatever the events. *)
Theorem tail_unconfigured (events : list TailEvent) (env : Env) (w : World)
    (Hmissing : configured env = false) :
  tail events env w
  = (tt, mkWorld (clock w) (entropy w) (draws w)
           (console w
              ++ [("error",
                   "Missing required environment variables: CORALOGIX_API_KEY and CORALOGIX_ENDPOINT")])
           (waiting w)).
Proof.
  unfold configured in Hmissing. unfold tail.
  destruct (ToBoolean (of_string (CORALOGIX_API_KEY env)));
    destruct (ToBoolean (of_string (CORALOGIX_ENDPOINT env)));
    try discriminate; reflexivity.
Qed.

Lemma tail_unconfigured_sample :
  waiting (snd (tail [sample_event]
                     (mkEnv (Some "") (Some "https://ingress.eu1.coralogix.com/logs/v1/singles")
                            None None)
                     sample_world))
  = [].
Proof.
  rewrite tail_unconfigured; reflexivity.
Defined.

(** ** Diagnostics *)

(** A hit of the field resolver has no effect.  A miss draws one random
    number and, when that number is below 0.1, writes one warning that names
    the field and, if one is given, the context; it does nothing else. *)
Theorem getValueOrLog_effects (value : JsValue) (fieldName context : string)
    (w : World) :
  snd (getValueOrLog value fieldName context w)
  = if present value then w
    else mkWorld (clock w) (entropy w) (S (draws w))
           (console w
              ++ (if PrimFloat.ltb (entropy w (draws w)) 0x1.999999999999ap-4%float
                  then [("warn",
                         "Missing " ++ fieldName
                           ++ (if context =? "" then "" else " in " ++ context))%string]
                  else []))
           (waiting w).
Proof.
  unfold getValueOrLog. destruct (present value); [reflexivity|].
  run. cbn [Math_random fst snd entropy draws clock console waiting].
  destruct (PrimFloat.ltb (entropy w (draws w)) 0x1.999999999999ap-4%float).
  - reflexivity.
  - cbn [ret snd]. now rewrite List.app_nil_r.
Qed.

Lemma bounded_ret (A : Type) (a : A) : bounded 0 0 (ret a).
Proof.
  intros w. simpl. split; [lia|]. exists []. now rewrite List.app_nil_r.
Qed.

Lemma bounded_weaken (A : Type) (d l d' l' : nat) (m : M A) :
  d <= d' -> l <= l' -> bounded d l m -> bounded d' l' m.
Proof.
  intros Hd Hl Hm w. destruct (Hm w) as (Hdraws & lines & Hlines & Hlen).
  split; [lia|]. exists lines. split; [assumption | lia].
Qed.

Lemma bounded_bind (A B : Type) (d1 l1 d2 l2 : nat) (m : M A) (k : A -> M B) :
  bounded d1 l1 m -> (forall a, bounded d2 l2 (k a)) ->
  bounded (d1 + d2) (l1 + l2) (bind m k).
Proof.
  intros Hm Hk w. rewrite bind_run.
  destruct (Hm w) as (Hd1 & lines1 & Hlines1 & Hlen1).
  destruct (Hk (fst (m w)) (snd (m w))) as (Hd2 & lines2 & Hlines2 & Hlen2).
  split; [lia|]. exists (lines1 ++ lines2).
  rewrite Hlines2, Hlines1, <- app_assoc, List.length_app. split; [reflexivity | lia].
Qed.

Lemma bounded_console_log (level message : string) :
  bounded 0 1 (console_log level message).
Proof.
  intros w. simpl. split; [lia|]. exists [(level, message)]. now split.
Qed.

Lemma bounded_Math_random : bounded 1 0 Math_random.
Proof.
  intros w. simpl. split; [lia|]. exists []. now rewrite List.app_nil_r.
Qed.

Lemma bounded_getValueOrLog (value : JsValue) (fieldName context : string) :
  bounded 1 1 (getValueOrLog value fieldName context).
Proof.
  unfold getValueOrLog. destruct (present value).
  - apply bounded_weaken with (d := 0) (l := 0); [lia | lia | apply bounded_ret].
  - apply (@bounded_bind _ _ 1 0 0 1); [apply bounded_Math_random | intros r].
    apply (@bounded_bind _ _ 0 1 0 0); [| intros _; apply bounded_ret].
    destruct (PrimFloat.ltb r _).
    + apply bounded_console_log.
    + apply bounded_weaken with (d := 0) (l := 0); [lia | lia | apply bounded_ret].
Qed.

Lemma bounded_warn_then (A : Type) (message : string) (a : A) :
  bounded 0 1 (console_warn message ;;; ret a).
Proof.
  apply (@bounded_bind _ _ 0 1 0 0); [apply bounded_console_log |].
  intros _. apply bounded_ret.
Qed.

Lemma bounded_extractRayId (event : TailEvent) (logData : LogData) :
  bounded 3 4 (extractRayId event logData).
Proof.
  unfold extractRayId.
  destruct (request_of event logData) as [request|].
  2:{ eapply bounded_weaken; [| | apply bounded_warn_then]; lia. }
  destruct (req_headers request) as [requestHeaders|].
  2:{ eapply bounded_weaken; [| | apply bounded_warn_then]; lia. }
  apply (@bounded_bind _ _ 1 1 2 3); [apply bounded_getValueOrLog | intros a].
  destruct (ToBoolean a).
  { eapply bounded_weaken; [| | apply bounded_ret]; lia. }
  apply (@bounded_bind _ _ 1 1 1 2); [apply bounded_getValueOrLog | intros b].
  destruct (ToBoolean b).
  { eapply bounded_weaken; [| | apply bounded_ret]; lia. }
  apply (@bounded_bind _ _ 1 1 0 1); [apply bounded_getValueOrLog | intros c].
  destruct (ToBoolean c).
  { eapply bounded_weaken; [| | apply bounded_ret]; lia. }
  apply bounded_warn_then.
Qed.

Lemma bounded_switch_type (log : CoralogixLog) (logData : LogData)
    (event : TailEvent) (type : string) :
  bounded 0 1 (switch_type log logData event type).
Proof.
  assert (Hret : forall l : CoralogixLog, bounded 0 1 (ret l)).
  { intros l. eapply bounded_weaken; [| | apply bounded_ret]; lia. }
  unfold switch_type.
  destruct (type =? "console"); [apply Hret|].
  destruct (type =? "exception"); [apply Hret|].
  destruct (type =? "fetch"); [| apply Hret].
  destruct (tailEvent2fastly event) as [fastlyLog|]; [| apply bounded_warn_then].
  destruct (response_status (fastly_response fastlyLog)) as [status|];
    [destruct (status =? "") |]; apply Hret.
Qed.

(** Building one entry draws at most three random numbers, writes at most six
    console lines after the ones already there, and schedules no delivery. *)
Theorem createCoralogixLog_effects (logData : LogData) (event : TailEvent)
    (env : Env) (type : string) :
  bounded 3 6 (createCoralogixLog logData event env type)
  /\ quiet (createCoralogixLog logData event env type).
Proof.
  split; [| apply quiet_createCoralogixLog].
  unfold createCoralogixLog.
  apply (@bounded_bind _ _ 0 0 3 6).
  { unfold timestamp_or_now.
    assert (Hnow : bounded 0 0 Date_now).
    { intros w. simpl. split; [lia|]. exists []. now rewrite List.app_nil_r. }
    destruct (ld_timestamp logData) as [t|]; [destruct (t =? 0)%Z |];
      (apply Hnow || apply bounded_ret). }
  intros timestamp.
  apply (@bounded_bind _ _ 3 4 0 2); [apply bounded_extractRayId | intros rayId].
  apply (@bounded_bind _ _ 0 1 0 1); [| intros _; apply bounded_switch_type].
  destruct (ToBoolean (of_string (ev_scriptName event))).
  - eapply bounded_weaken; [| | apply bounded_ret]; lia.
  - apply bounded_console_log.
Qed.

(** ** The ray id *)

Lemma first_present_strings (a b c : option string) :
  let rayId := first_present [of_string a; of_string b; of_string c] JsUndefined in
  rayId = JsUndefined \/ exists s, rayId = JsString s /\ s <> "".
Proof.
  cbv zeta.
  destruct a as [[|x a]|], b as [[|y b]|], c as [[|z c]|]; simpl;
    solve [now left | right; eexists; split; [reflexivity | discriminate]].
Qed.

(** [extractRayId] returns [undefined] or a non-empty string: the [null] that
    the field resolver returns on a miss, and an empty string, never come
    out. *)
Theorem extractRayId_result (event : TailEvent) (logData : LogData) (w : World) :
  fst (extractRayId event logData w) = JsUndefined
  \/ exists s, fst (extractRayId event logData w) = JsString s /\ s <> "".
Proof.
  rewrite extractRayId_fst.
  destruct (request_of event logData) as [request|]; [| now left].
  destruct (req_headers request) as [requestHeaders|]; [| now left].
  rewrite (header_string requestHeaders "cf-ray" eq_refl).
  apply first_present_strings.
Qed.

(** All entries of an event that has a fetch request get the same [threadId],
    whatever the item, the type, the configuration or the moment. *)
Theorem threadId_shared (event : TailEvent) (request : Request)
    (logData logData' : LogData) (env env' : Env) (type type' : string)
    (w w' : World)
    (Hrequest : opt (ev_event event) fe_request = Some request) :
  threadId (fst (createCoralogixLog logData event env type w))
  = threadId (fst (createCoralogixLog logData' event env' type' w')).
Proof.
  destruct (createCoralogixLog_fst logData event env type w)
    as (t & u & v & ->).
  destruct (createCoralogixLog_fst logData' event env' type' w')
    as (t' & u' & v' & ->).
  rewrite !switch_type_threadId. cbn [base_log threadId].
  rewrite !extractRayId_fst. unfold request_of. now rewrite Hrequest.
Qed.

Lemma threadId_shared_sample :
  threadId (fst (createCoralogixLog (sample_console "warn") sample_event
                   sample_env "console" sample_world))
  = threadId (fst (createCoralogixLog
                     (mkLogData None None (OtherMessage "boom") (Some "Error") None)
                     sample_event sample_env "exception" sample_world)).
Proof.
  exact (@threadId_shared sample_event sample_request (sample_console "warn")
           (mkLogData None None (OtherMessage "boom") (Some "Error") None)
           sample_env sample_env "console" "exception" sample_world sample_world
           eq_refl).
Defined.

(** The bounds are reached: a fetch entry for an event with no script name,
    whose request has empty headers and a URL that does not parse, with every
    random draw below 0.1. *)
Example createCoralogixLog_effects_tight :
  let fe := mkFetchEvent (Some (mkRequest None (Some "nowhere") (Some []) None)) None in
  let event := mkTailEvent None None None (Some fe) None None in
  let w := mkWorld 0 (fun _ => 0%float) 0 [] [] in
  let w' := snd (createCoralogixLog (fetch_logData fe) event sample_env "fetch" w) in
  draws w' = 3 /\ length (console w') = 6.
Proof. split; reflexivity. Qed.

(** ** More of the converted record *)

(** On a converted event the four IP fields ([client.ip], the two of
    [cdn.originating_ip_geoip] and [cdn.originating_ip]) hold one value:
    [cf.ip] when it is a non-empty string, else whatever the request headers
    hold under [cf-connecting-ip] ([undefined] when there is no such
    header). *)
Theorem ip_fallback (event : TailEvent) (request : Request) (fastlyLog : FastlyLog)
    (Hrequest : opt (ev_event event) fe_request = Some request)
    (Hconv : tailEvent2fastly event = Some fastlyLog) :
  let headers := match req_headers request with Some h => h | None => [] end in
  let ip := client_ip (fastly_client fastlyLog) in
  geoip_ip (cdn_originating_ip_geoip (fastly_cdn fastlyLog)) = ip
  /\ geoip_ip_ipaddr (cdn_originating_ip_geoip (fastly_cdn fastlyLog)) = ip
  /\ cdn_originating_ip (fastly_cdn fastlyLog) = ip
  /\ (forall s, opt (req_cf request) cf_ip = Some s -> s <> "" -> ip = JsString s)
  /\ (opt (req_cf request) cf_ip = None \/ opt (req_cf request) cf_ip = Some "" ->
      ip = of_string (own headers "cf-connecting-ip")).
Proof.
  revert Hconv. unfold tailEvent2fastly. rewrite Hrequest. cbn [opt].
  destruct (URL_parse (ToString (req_url request))); [| discriminate].
  intros H. injection H as <-. cbv zeta.
  cbn [fastly_client fastly_cdn client_ip cdn_originating_ip_geoip geoip_ip
       geoip_ip_ipaddr cdn_originating_ip].
  rewrite (header_string _ "cf-connecting-ip" eq_refl).
  split; [reflexivity|]. split; [reflexivity|]. split; [reflexivity|]. split.
  - intros s -> Hs. unfold js_or. simpl.
    apply String.eqb_neq in Hs. now rewrite Hs.
  - intros [->| ->]; reflexivity.
Qed.

Lemma ip_fallback_sample :
  option_map (fun f => client_ip (fastly_client f)) (tailEvent2fastly sample_event)
  = Some (JsString "203.0.113.7").
Proof.
  destruct (tailEvent2fastly sample_event) as [f|] eqn:E; [| discriminate E].
  destruct (@ip_fallback sample_event sample_request f eq_refl E)
    as (_ & _ & _ & _ & H).
  simpl. f_equal. exact (H (or_introl eq_refl)).
Defined.

(** [cdn.cache_status] is read from the response headers as received, under
    the exact key [cf-cache-status]: a header spelled otherwise gives
    [undefined], even though it appears under [cf_cache_status] in the folded
    response headers. *)
Theorem cache_status_lookup (event : TailEvent) (fastlyLog : FastlyLog)
    (Hconv : tailEvent2fastly event = Some fastlyLog) :
  let responseHeaders :=
    match opt (opt (ev_event event) fe_response) res_headers with
    | Some h => h
    | None => []
    end in
  cdn_cache_status (fastly_cdn fastlyLog)
  = of_string (own responseHeaders "cf-cache-status")
  /\ response_headers (fastly_response fastlyLog) = foldHeaders responseHeaders
  /\ let spelled := [("CF-Cache-Status", "HIT")] in
     own spelled "cf-cache-status" = None
     /\ own (foldHeaders spelled) "cf_cache_status" = Some "HIT".
Proof.
  revert Hconv. unfold tailEvent2fastly.
  destruct (opt (ev_event event) fe_request) as [request|]; [| discriminate].
  destruct (URL_parse (ToString (req_url request))); [| discriminate].
  intros H. injection H as <-. cbv zeta.
  cbn [fastly_cdn cdn_cache_status fastly_response response_headers].
  rewrite (header_string _ "cf-cache-status" eq_refl).
  repeat split.
Qed.

Lemma cache_status_lookup_sample :
  option_map (fun f => cdn_cache_status (fastly_cdn f))
    (tailEvent2fastly
       (fetch_only (sample_fetch "https://example.com/" None None (Some 200%Z))))
  = Some (JsString "HIT").
Proof.
  destruct (tailEvent2fastly
              (fetch_only (sample_fetch "https://example.com/" None None (Some 200%Z))))
    as [f|] eqn:E; [| discriminate E].
  simpl. f_equal.
  destruct (cache_status_lookup _ E) as [-> _]. reflexivity.
Defined.

(** The numbers that the converted record carries as strings read back to
    the number: [response.status] is the rendering of the response status and
    [asn.number] that of [cf.asn], and [parseInt] gives each number back, for
    numbers that [toString] writes in plain digits (magnitude below 10^21).
    [client.number] is [cf.asn] itself, and a missing status or AS number
    stays missing. *)
Theorem numbers_as_strings (event : TailEvent) (request : Request)
    (fastlyLog : FastlyLog)
    (Hrequest : opt (ev_event event) fe_request = Some request)
    (Hconv : tailEvent2fastly event = Some fastlyLog)
    (Hasn : forall n, opt (req_cf request) cf_asn = Some n -> plain_decimal n)
    (Hstatus : forall n, status_of event = Some n -> plain_decimal n) :
  let asn := opt (req_cf request) cf_asn in
  let number := asn_number (geoip_asn (cdn_originating_ip_geoip (fastly_cdn fastlyLog))) in
  let status := response_status (fastly_response fastlyLog) in
  client_number (fastly_client fastlyLog) = asn
  /\ opt number parseInt = asn
  /\ opt status parseInt = status_of event
  /\ (asn = None -> number = None)
  /\ (status_of event = None -> status = None).
Proof.
  cbv zeta. rewrite (tailEvent2fastly_status _ Hconv).
  revert Hconv. unfold tailEvent2fastly. rewrite Hrequest. cbn [opt].
  destruct (URL_parse (ToString (req_url request))); [| discriminate].
  intros H. injection H as <-.
  cbn [fastly_client fastly_cdn client_number cdn_originating_ip_geoip geoip_asn
       asn_number].
  split; [reflexivity|]. split; [| split; [| split]].
  - destruct (opt (req_cf request) cf_asn) as [n|]; simpl; [| reflexivity].
    apply parseInt_Number_toString, Hasn. reflexivity.
  - destruct (status_of event) as [n|]; simpl; [| reflexivity].
    apply parseInt_Number_toString, Hstatus. reflexivity.
  - now intros ->.
  - now intros ->.
Qed.

Lemma numbers_as_strings_sample :
  option_map (fun f => (client_number (fastly_client f),
                        response_status (fastly_response f)))
             (tailEvent2fastly sample_event)
  = Some (Some 8881%Z, Some "200").
Proof.
  destruct (tailEvent2fastly sample_event) as [f|] eqn:E; [| discriminate E].
  destruct (@numbers_as_strings sample_event sample_request f eq_refl E)
    as (H1 & _).
  - intros n H. injection H as <-. reflexivity.
  - intros n H. injection H as <-. reflexivity.
  - simpl. rewrite H1. injection E as <-. reflexivity.
Defined.

(** ** More on header folding *)

Lemma fold_char_fixed (c : ascii) :
  negb (is_upper c) && negb (Ascii.eqb c "-") = true ->
  (if Ascii.eqb (toLowerCase_ascii c) "-" then "_"%char else toLowerCase_ascii c) = c.
Proof.
  destruct c as [[] [] [] [] [] [] [] []]; intros H;
    solve [discriminate H | reflexivity].
Qed.

Lemma fold_key_fixed (key : string) : folded key = true -> fold_key key = key.
Proof.
  unfold folded, fold_key.
  induction key as [|c key IH]; simpl; [reflexivity|].
  intros H. apply andb_prop in H as [Hc Hkey].
  now rewrite (IH Hkey), (fold_char_fixed c Hc).
Qed.

Lemma own_notin (V : Type) (o : list (string * V)) (key : string) :
  own o key = None <-> ~ In key (map fst o).
Proof.
  induction o as [|[k v] o IH]; simpl.
  - split; [intros _ [] | reflexivity].
  - destruct (k =? key) eqn:E.
    + apply String.eqb_eq in E. split; [discriminate | intros H; destruct H; now left].
    + apply String.eqb_neq in E. rewrite IH. tauto.
Qed.

Lemma own_set_fresh (V : Type) (o : list (string * V)) (key : string) (v : V) :
  ~ In key (map fst o) -> own_set o key v = o ++ [(key, v)].
Proof.
  induction o as [|[k w] o IH]; simpl; intros H; [reflexivity|].
  destruct (k =? key) eqn:E.
  - apply String.eqb_eq in E. destruct H. now left.
  - f_equal. apply IH. tauto.
Qed.

(** Folding entries whose keys are already folded, pairwise distinct and new
    to the accumulator appends them as they are. *)
Lemma fold_left_fixed (l acc : Headers) :
  Forall (fun e => folded (fst e) = true /\ fst e <> "__proto__") l ->
  NoDup (map fst (acc ++ l)) ->
  fold_left fold_step l acc = acc ++ l.
Proof.
  revert acc. induction l as [|[k v] l IH]; intros acc Hl Hnd; simpl.
  - now rewrite List.app_nil_r.
  - inversion Hl as [|? ? [Hk Hproto] Hl']; subst. simpl in Hk, Hproto.
    rewrite (fold_key_fixed k Hk). unfold assign.
    apply String.eqb_neq in Hproto. rewrite Hproto.
    assert (Hfresh : ~ In k (map fst acc)).
    { rewrite map_app in Hnd. simpl in Hnd.
      apply NoDup_remove_2 in Hnd. intros Hin. apply Hnd.
      apply in_or_app. now left. }
    rewrite (@own_set_fresh _ acc k v Hfresh), IH.
    + now rewrite <- app_assoc.
    + exact Hl'.
    + now rewrite <- app_assoc.
Qed.

Lemma foldHeaders_keys (H : Headers) :
  Forall (fun e => folded (fst e) = true /\ fst e <> "__proto__") (foldHeaders H).
Proof.
  apply Forall_forall. intros [k v] Hin. simpl. split.
  - apply fold_left_In in Hin as [[]|(key & _ & E)].
    simpl in E. subst k. apply folded_fold_key.
  - intros ->.
    pose proof (fold_left_proto H [] eq_refl) as Hnone.
    apply own_notin in Hnone. apply Hnone.
    apply in_map_iff. now exists ("__proto__", v).
Qed.

(** Folding is idempotent: folding a folded mapping changes nothing. *)
Theorem foldHeaders_idempotent (H : Headers) :
  foldHeaders (foldHeaders H) = foldHeaders H.
Proof.
  unfold foldHeaders at 1.
  apply (@fold_left_fixed (foldHeaders H) []).
  - apply foldHeaders_keys.
  - apply fold_left_NoDup. constructor.
Qed.

Lemma last_entry_found (V : Type) (l : list (string * V)) (key : string) (v : V) :
  In (key, v) l -> exists v', last_entry l key = Some v'.
Proof.
  induction l as [|[k w] l IH]; simpl; [intros [] |].
  intros [E|Hin].
  - inversion E; subst. destruct (last_entry l key) as [v'|].
    + now exists v'.
    + rewrite String.eqb_refl. now exists v.
  - destruct (IH Hin) as (v' & ->). now exists v'.
Qed.

Lemma own_set_length (V : Type) (o : list (string * V)) (key : string) (v : V) :
  length (own_set o key v) <= S (length o).
Proof.
  induction o as [|[k w] o IH]; simpl; [lia|].
  destruct (k =? key); simpl; lia.
Qed.

Lemma fold_left_length (h acc : Headers) :
  length (fold_left fold_step h acc) <= length acc + length h.
Proof.
  revert acc. induction h as [|[key value] h IH]; intros acc; simpl; [lia|].
  specialize (IH (assign acc (fold_key key) value)).
  unfold assign in *. destruct (fold_key key =? "__proto__"); [lia|].
  pose proof (own_set_length acc (fold_key key) value). lia.
Qed.

(** No header is lost by folding, short of a collision: every source key has
    its folded key in the folded mapping, unless it folds to [__proto__]; and
    the folded mapping has at most as many entries as the source. *)
Theorem foldHeaders_complete (H : Headers) :
  (forall key value, In (key, value) H -> fold_key key <> "__proto__" ->
     exists value', own (foldHeaders H) (fold_key key) = Some value') /\
  length (foldHeaders H) <= length H.
Proof.
  split.
  - intros key value Hin Hproto. unfold foldHeaders.
    rewrite fold_left_own by assumption.
    destruct (@last_entry_found _ (map fold_entry H) (fold_key key) value)
      as (v' & ->).
    + apply in_map_iff. now exists (key, value).
    + now exists v'.
  - apply (@fold_left_length H []).
Qed.

(** ** Console messages *)

Lemma string_app_assoc (a b c : string) :
  ((a ++ b) ++ c = a ++ (b ++ c))%string.
Proof. induction a as [|x a IH]; simpl; [reflexivity | now rewrite IH]. Qed.

Lemma concat_app_nonempty (sep : string) (xs ys : list string) :
  xs <> [] -> ys <> [] ->
  String.concat sep (xs ++ ys)
  = (String.concat sep xs ++ sep ++ String.concat sep ys)%string.
Proof.
  intros Hxs Hys. induction xs as [|x xs IH]; [contradiction|].
  destruct xs as [|x' xs].
  - simpl. destruct ys; [contradiction | reflexivity].
  - change (String.concat sep ((x :: x' :: xs) ++ ys))
      with (x ++ sep ++ String.concat sep ((x' :: xs) ++ ys))%string.
    rewrite IH by discriminate.
    change (String.concat sep (x :: x' :: xs))
      with (x ++ sep ++ String.concat sep (x' :: xs))%string.
    now rewrite !string_app_assoc.
Qed.

(** [formatConsoleMessage] keeps every element of the message array, in
    order, one space apart: the text of two arrays put together is the text
    of the first, a space, and the text of the second; an empty array gives
    the empty text and a value that is not an array its own rendering. *)
Theorem formatConsoleMessage_app (xs ys : list MessagePart)
    (Hxs : xs <> []) (Hys : ys <> []) :
  formatConsoleMessage (ArrayMessage (xs ++ ys))
  = (formatConsoleMessage (ArrayMessage xs) ++ " "
       ++ formatConsoleMessage (ArrayMessage ys))%string
  /\ formatConsoleMessage (ArrayMessage []) = ""
  /\ forall str, formatConsoleMessage (OtherMessage str) = str.
Proof.
  split; [| split; reflexivity].
  unfold formatConsoleMessage. rewrite map_app.
  apply concat_app_nonempty.
  - destruct xs; [contradiction | discriminate].
  - destruct ys; [contradiction | discriminate].
Qed.

Lemma formatConsoleMessage_sample :
  formatConsoleMessage (ArrayMessage ([ScalarPart "a"] ++ [ObjectPart "[1,2]"]))
  = "a [1,2]".
Proof.
  destruct (@formatConsoleMessage_app [ScalarPart "a"] [ObjectPart "[1,2]"])
    as [-> _]; [discriminate | discriminate | reflexivity].
Defined.

(** ** Text and class name *)

(** The [text] and [className] of an entry by type: a console entry carries
    the formatted message and the class name ['TailWorker']; an exception
    entry carries the serialized [{name, message, timestamp}] of the item and
    the exception's name as class name ([undefined] when the item has none);
    a fetch entry whose conversion succeeds carries the serialized record and
    ['TailWorker']. *)
Theorem text_and_className (logData : LogData) (event : TailEvent) (env : Env)
    (w : World) :
  let console := fst (createCoralogixLog logData event env "console" w) in
  let exception := fst (createCoralogixLog logData event env "exception" w) in
  let fetch := fst (createCoralogixLog logData event env "fetch" w) in
  text console = Literal (formatConsoleMessage (ld_message logData))
  /\ className console = JsString "TailWorker"
  /\ text exception
     = JSON_stringify_exception (ld_name logData) (ld_message logData)
                                (ld_timestamp logData)
  /\ className exception = of_string (ld_name logData)
  /\ className fetch = JsString "TailWorker"
  /\ (forall fastlyLog, tailEvent2fastly event = Some fastlyLog ->
        text fetch = JSON_stringify_fastly fastlyLog).
Proof.
  cbv zeta.
  destruct (createCoralogixLog_fst logData event env "fetch" w)
    as (t1 & u1 & v1 & ->).
  destruct (createCoralogixLog_fst logData event env "console" w)
    as (t2 & u2 & v2 & ->).
  destruct (createCoralogixLog_fst logData event env "exception" w)
    as (t3 & u3 & v3 & ->).
  unfold switch_type. cbn [String.eqb Ascii.eqb Bool.eqb].
  split; [reflexivity|]. split; [reflexivity|]. split; [reflexivity|].
  split; [reflexivity|]. split.
  - destruct (tailEvent2fastly event) as [fastlyLog|]; [| now run].
    destruct (response_status (fastly_response fastlyLog)) as [status|];
      [destruct (status =? "") |]; reflexivity.
  - intros fastlyLog ->.
    destruct (response_status (fastly_response fastlyLog)) as [status|];
      [destruct (status =? "") |]; reflexivity.
Qed.

(** ** Reporting a delivery *)

(** [sendToCoralogix] writes exactly one console line and has no other
    effect.  The line goes to [console.log] and tells how many entries were
    sent exactly when the request resolves with a status from 200 to 299; a
    response with any other status, a rejected request and a rejected body
    read each go to [console.error]. *)
Theorem sendToCoralogix_reports (fetch : JsValue -> FetchInit -> FetchResult)
    (logs : list CoralogixLog) (env : Env) (w : World) :
  let result :=
    fetch (of_string (CORALOGIX_ENDPOINT env))
      (mkFetchInit "POST"
         [ ("Content-Type", "application/json");
           ("Authorization", ("Bearer " ++ ToString (CORALOGIX_API_KEY env))%string) ]
         logs) in
  let succeeded :=
    match result with
    | Resolved status _ _ => response_ok status
    | Rejected _ => false
    end in
  exists message,
    sendToCoralogix fetch logs env w
    = (tt, mkWorld (clock w) (entropy w) (draws w)
             (console w ++ [(if succeeded then "log" else "error", message)])
             (waiting w))
    /\ (succeeded = true ->
        message = ("Successfully sent " ++ Number_toString (Z.of_nat (length logs))
                     ++ " logs to Coralogix")%string).
Proof.
  cbv zeta. unfold sendToCoralogix.
  destruct (fetch _ _) as [error | status statusText [errorText | error]].
  - eexists. split; [reflexivity | discriminate].
  - destruct (response_ok status); cbn [negb].
    + eexists. split; [reflexivity | reflexivity].
    + eexists. split; [reflexivity | discriminate].
  - destruct (response_ok status); cbn [negb].
    + eexists. split; [reflexivity | reflexivity].
    + eexists. split; [reflexivity | discriminate].
Qed.

(** ** Batches, one by one *)

Lemma batches_from_nth (A : Type) (events : list A) (batchSize fuel i j : nat)
    (batch : list A) :
  nth_error (batches_from fuel i batchSize events) j = Some batch ->
  batch = slice (i + j * batchSize) (i + j * batchSize + batchSize) events
  /\ i + j * batchSize < length events.
Proof.
  revert i j. induction fuel as [|fuel IH]; intros i j; simpl.
  - now destruct j.
  - destruct (i <? length events)%nat eqn:E.
    + apply Nat.ltb_lt in E. destruct j as [|j]; simpl.
      * intros H. injection H as <-. rewrite Nat.add_0_r. now split.
      * intros H. apply IH in H as [-> Hlt].
        replace (i + batchSize + j * batchSize) with (i + (batchSize + j * batchSize))
          in * by lia.
        now split.
    + now destruct j.
Qed.

Lemma batches_from_length (A : Type) (events : list A) (batchSize fuel i : nat) :
  0 < batchSize -> length events - i <= fuel ->
  length (batches_from fuel i batchSize events)
  = (length events - i + (batchSize - 1)) / batchSize.
Proof.
  intros Hsize. revert i. induction fuel as [|fuel IH]; intros i Hfuel; simpl.
  - replace (length events - i) with 0 by lia.
    symmetry. apply Nat.div_small. lia.
  - destruct (i <? length events)%nat eqn:E.
    + apply Nat.ltb_lt in E. simpl. rewrite IH by lia.
      destruct (Nat.le_gt_cases batchSize (length events - i)) as [Hge|Hlt].
      * replace (length events - i + (batchSize - 1))
          with (length events - (i + batchSize) + (batchSize - 1) + 1 * batchSize)
          by lia.
        rewrite Nat.div_add by lia. lia.
      * replace (length events - (i + batchSize)) with 0 by lia.
        rewrite Nat.div_small by lia.
        simpl. apply Nat.div_unique with (r := length events - i - 1); lia.
    + apply Nat.ltb_ge in E.
      replace (length events - i) with 0 by lia.
      symmetry. apply Nat.div_small. lia.
Qed.

(** [tail] cuts [ceil(n / 100)] batches out of [n] events, and batch number
    [j] (from 0) is [events.slice(100 * j, 100 * j + 100)]: 100 events, or
    for the last batch what is left. *)
Theorem batch_slices (events : list TailEvent) (j : nat) (batch : list TailEvent)
    (Hbatch : nth_error (batches_from (length events) 0 100 events) j = Some batch) :
  batch = firstn 100 (skipn (100 * j) events)
  /\ 100 * j < length events
  /\ length batch = Nat.min 100 (length events - 100 * j)
  /\ length (batches_from (length events) 0 100 events) = (length events + 99) / 100.
Proof.
  apply batches_from_nth in Hbatch as [-> Hlt]. simpl in Hlt.
  unfold slice. simpl (0 + _).
  replace (j * 100 + 100 - j * 100) with 100 by lia.
  replace (j * 100) with (100 * j) in * by lia.
  split; [reflexivity|]. split; [exact Hlt|]. split.
  - now rewrite length_firstn, length_skipn.
  - rewrite batches_from_length by lia. f_equal. lia.
Qed.

Lemma batch_slices_sample :
  let events := repeat sample_event 250 in
  firstn 100 (skipn 200 events) = repeat sample_event 50
  /\ length (batches_from (length events) 0 100 events) = 3.
Proof.
  cbv zeta.
  destruct (@batch_slices (repeat sample_event 250) 2 (repeat sample_event 50)
              eq_refl) as (H1 & _ & _ & H4).
  split; [symmetry; exact H1 | exact H4].
Defined.

(** ** The conversion test *)

(** The assertions of the test [tailEvent2fastly converts tail event to Fastly
    format], on the sample event. *)
Example test_converts_tail_event :
  option_map
    (fun f =>
       let request := fastly_request f in
       let client := fastly_client f in
       let cdn := fastly_cdn f in
       let geoip := cdn_originating_ip_geoip cdn in
       ( (request_method request, request_host request, request_url request,
          request_protocol request),
         response_status (fastly_response f),
         (client_name client, client_number client, client_city_name client,
          client_country_name client),
         (cdn_datacenter cdn, cdn_url cdn, cdn_time_elapsed_msec cdn),
         (geoip_continent_name geoip, geoip_country_name geoip,
          geoip_city_name geoip, geoip_location_geopoint geoip),
         map fst (request_headers request) ))
    (tailEvent2fastly sample_event)
  = Some
      ( (JsString "GET", JsString "minivelos.bike", "/bikes/lars-moulton-tsr",
         JsString "HTTP/2"),
        Some "200",
        (JsString "1&1 Versatel GmbH", Some 8881%Z, JsString "Potsdam", JsString "DE"),
        (JsString "TXL", JsString "https://minivelos.bike/bikes/lars-moulton-tsr",
         Some 28%float),
        (JsString "EU", JsString "DE", JsString "Potsdam",
         mkGeopoint (JsNumber 0x1.a330dd82fd75ep+5) (JsNumber 0x1.a219e30014f8bp+3)),
        ["accept_encoding"; "cf_connecting_ip"; "cf_ray"; "host"; "user_agent"] ).
Proof. reflexivity. Qed.

(** The tests [handles missing request gracefully] and [handles invalid URL
    gracefully]. *)
Example test_missing_request_and_invalid_url :
  tailEvent2fastly (mkTailEvent None None None (Some (mkFetchEvent None None))
                                None None) = None
  /\ tailEvent2fastly
       (mkTailEvent None None None
          (Some (mkFetchEvent (Some (mkRequest None (Some "not-a-valid-url")
                                               (Some []) None)) None))
          None None) = None.
Proof. split; reflexivity. Qed.

(** ** Severity table and unknown types *)

Lemma console_severity (logData : LogData) (event : TailEvent) (env : Env)
    (w : World) :
  severity (fst (createCoralogixLog logData event env "console" w))
  = get SEVERITY_MAP (ToString (ld_level logData)) ||| JsNumber 3.
Proof.
  destruct (createCoralogixLog_fst logData event env "console" w)
    as (t & u & v & ->).
  reflexivity.
Qed.

(** The severity of a console entry follows the level table, whatever the
    rest of the item, the event and the configuration: [debug] gives 1,
    [info] and [log] give 3, [warn] gives 4, [error] gives 5; an item with no
    level gives 3, and so does a level in another case such as [WARN].  An
    exception entry always has severity 5. *)
Theorem severity_table (timestamp : option Z) (message : Message)
    (name : option string) (request : option Request) (event : TailEvent)
    (env : Env) (w : World) :
  let of_level level :=
    severity (fst (createCoralogixLog
                     (mkLogData timestamp level message name request)
                     event env "console" w)) in
  of_level (Some "debug") = JsNumber 1
  /\ of_level (Some "info") = JsNumber 3
  /\ of_level (Some "log") = JsNumber 3
  /\ of_level (Some "warn") = JsNumber 4
  /\ of_level (Some "error") = JsNumber 5
  /\ of_level None = JsNumber 3
  /\ of_level (Some "WARN") = JsNumber 3
  /\ forall level,
       severity (fst (createCoralogixLog
                        (mkLogData timestamp level message name request)
                        event env "exception" w))
       = JsNumber 5.
Proof.
  cbv zeta beta. rewrite !console_severity. repeat split.
  intros level.
  destruct (createCoralogixLog_fst (mkLogData timestamp level message name request)
              event env "exception" w) as (t & u & v & ->).
  reflexivity.
Qed.

(** A [type] other than ['console'], ['exception'] and ['fetch'] falls through
    the switch: the entry keeps severity 3, the empty text and the class name
    ['TailWorker'], gets no [methodName], and no warning is written for it. *)
Theorem unknown_type (log : CoralogixLog) (logData : LogData) (event : TailEvent)
    (env : Env) (type : string) (w : World)
    (Hconsole : type <> "console") (Hexception : type <> "exception")
    (Hfetch : type <> "fetch") :
  switch_type log logData event type w = (log, w)
  /\ let entry := fst (createCoralogixLog logData event env type w) in
     severity entry = JsNumber 3
     /\ text entry = Literal ""
     /\ className entry = JsString "TailWorker"
     /\ methodName entry = None
     /\ category entry = type.
Proof.
  apply String.eqb_neq in Hconsole, Hexception, Hfetch.
  split.
  - unfold switch_type. now rewrite Hconsole, Hexception, Hfetch.
  - cbv zeta.
    destruct (createCoralogixLog_fst logData event env type w)
      as (t & u & v & ->).
    unfold switch_type. rewrite Hconsole, Hexception, Hfetch.
    repeat split.
Qed.

Lemma unknown_type_sample :
  methodName (fst (createCoralogixLog (sample_console "log") sample_event
                     sample_env "scheduled" sample_world))
  = None.
Proof.
  destruct (@unknown_type (base_log 0 JsUndefined sample_event sample_env "scheduled")
              (sample_console "log") sample_event sample_env "scheduled"
              sample_world) as (_ & _ & _ & _ & H & _);
    [discriminate | discriminate | discriminate | exact H].
Defined.
